(** * DHT11 decode path (src/dht11_takemoto_pigpio.py)

    A shallow embedding of the decoding half of [DHT11.read]: the pulse
    parser, the bit decoder, the byte packer and the checksum step.  The
    acquisition half (GPIO mode changes, the wake-up pulse, the busy-poll
    loop of [__collect_input]) only produces the list of samples [data];
    everything below is a function of that list.  The busy-poll loop
    itself is modelled on a record of what its passes observe: the level
    read from the line and the outcome of the elapsed-time test.

    Python integers are unbounded, so they are [Z].  The two places where
    the source leaves the integers ([/] is true division in Python 3) are
    kept as exact rationals [Q]: [halfway] in [__calculate_bits] and the
    temperature / humidity pair built at the end of [read].  For [halfway]
    the rational is what the float holds whenever the pulse lengths are
    below 2^52 (halves of such integers are representable), and Python
    compares an int with a float exactly.

    The rationals are the doubles of the source only where the double
    arithmetic does not round.  For line 153 that is the case when every
    pulse length lies between 0 and 2^52 ([exact_double_bound]); beyond
    2^53 the source rounds, and near 2^1024 it raises OverflowError, which
    the embedding does not show.  For lines 73-74 it is the case when the
    decimal byte is a multiple of 5; otherwise the source returns the
    double nearest to the rational.  Every statement below whose truth
    depends on the value of [halfway], or on the value of a returned
    temperature or humidity, carries the matching hypothesis; the lemmas
    [halfway_exact] and [tenths_exact] show that under these hypotheses
    every intermediate value is a binary64 number. *)

From Stdlib Require Import ZArith QArith List Bool Lia.
Import ListNotations.
Local Open Scope Z_scope.

Module DHT11.

(** ** Exceptions as results *)

Inductive exn : Type :=
| DHT11MissingDataError
| DHT11CRCError
| IndexError.

Inductive result (A : Type) : Type :=
| Return (a : A)
| Raise (e : exn).

Arguments Return {A} a.
Arguments Raise {A} e.

Definition bind {A B : Type} (m : result A) (k : A -> result B) : result B :=
  match m with
  | Return a => k a
  | Raise e => Raise e
  end.

Notation "x <- m ;; k" := (bind m (fun x => k))
  (at level 61, m at next level, right associativity).

(** [l[i]] for a constant, non-negative index. *)
Definition index {A : Type} (l : list A) (i : nat) : result A :=
  match nth_error l i with
  | Some x => Return x
  | None => Raise IndexError
  end.

(** ** __parse_data_pull_up_lengths *)

Inductive state : Type :=
| STATE_INIT_PULL_DOWN
| STATE_INIT_PULL_UP
| STATE_DATA_FIRST_PULL_DOWN
| STATE_DATA_PULL_UP
| STATE_DATA_PULL_DOWN.

(** The integer the source binds to each state name. *)
Definition state_code (s : state) : Z :=
  match s with
  | STATE_INIT_PULL_DOWN => 1
  | STATE_INIT_PULL_UP => 2
  | STATE_DATA_FIRST_PULL_DOWN => 3
  | STATE_DATA_PULL_UP => 4
  | STATE_DATA_PULL_DOWN => 5
  end.

(** The three locals the loop updates. *)
Record parser : Type := mkParser {
  st : state;
  lengths : list Z;
  current_length : Z
}.

Definition parser_init : parser :=
  {| st := STATE_INIT_PULL_DOWN; lengths := []; current_length := 0 |}.

(** One iteration of the [for] loop on sample [current]. *)
Definition parse_step (p : parser) (current : Z) : parser :=
  let current_length := current_length p + 1 in
  match st p with
  | STATE_INIT_PULL_DOWN =>
      if current =? 0
      then mkParser STATE_INIT_PULL_UP (lengths p) current_length
      else mkParser (st p) (lengths p) current_length
  | STATE_INIT_PULL_UP =>
      if current =? 1
      then mkParser STATE_DATA_FIRST_PULL_DOWN (lengths p) current_length
      else mkParser (st p) (lengths p) current_length
  | STATE_DATA_FIRST_PULL_DOWN =>
      if current =? 0
      then mkParser STATE_DATA_PULL_UP (lengths p) current_length
      else mkParser (st p) (lengths p) current_length
  | STATE_DATA_PULL_UP =>
      if current =? 1
      then mkParser STATE_DATA_PULL_DOWN (lengths p) 0
      else mkParser (st p) (lengths p) current_length
  | STATE_DATA_PULL_DOWN =>
      if current =? 0
      then mkParser STATE_DATA_PULL_UP (lengths p ++ [current_length])
                    current_length
      else mkParser (st p) (lengths p) current_length
  end.

Definition parse_run (p : parser) (data : list Z) : parser :=
  fold_left parse_step data p.

Definition parse_data_pull_up_lengths (data : list Z) : list Z :=
  lengths (parse_run parser_init data).

(** ** __calculate_bits *)

(** Body of the first loop: the running pair
    [(shortest_pull_up, longest_pull_up)]. *)
Definition scan_step (acc : Z * Z) (length : Z) : Z * Z :=
  let '(shortest_pull_up, longest_pull_up) := acc in
  let shortest_pull_up :=
    if length <? shortest_pull_up then length else shortest_pull_up in
  let longest_pull_up :=
    if length >? longest_pull_up then length else longest_pull_up in
  (shortest_pull_up, longest_pull_up).

Definition scan (pull_up_lengths : list Z) : Z * Z :=
  fold_left scan_step pull_up_lengths (1000, 0).

Definition shortest_pull_up (pull_up_lengths : list Z) : Z :=
  fst (scan pull_up_lengths).

Definition longest_pull_up (pull_up_lengths : list Z) : Z :=
  snd (scan pull_up_lengths).

Definition halfway (pull_up_lengths : list Z) : Q :=
  let shortest := shortest_pull_up pull_up_lengths in
  let longest := longest_pull_up pull_up_lengths in
  (inject_Z shortest + inject_Z (longest - shortest) / 2)%Q.

(** [x > y] on rationals, as a boolean. *)
Definition Qgtb (x y : Q) : bool := negb (Qle_bool x y).

Definition calculate_bits (pull_up_lengths : list Z) : list bool :=
  let halfway := halfway pull_up_lengths in
  map (fun length => if Qgtb (inject_Z length) halfway then true else false)
      pull_up_lengths.

(** ** __bits_to_bytes *)

(** The loop from index [i] on, with the accumulator [byte_d] and the
    output built so far. *)
Fixpoint bits_to_bytes_loop (bit_list0 : list bool) (i : Z) (byte_d : Z)
    (bytes : list Z) : list Z :=
  match bit_list0 with
  | [] => bytes
  | bit :: rest =>
      let byte_d := Z.shiftl byte_d 1 in
      let byte_d := if bit then Z.lor byte_d 1 else Z.lor byte_d 0 in
      if (i + 1) mod 8 =? 0
      then bits_to_bytes_loop rest (i + 1) 0 (bytes ++ [byte_d])
      else bits_to_bytes_loop rest (i + 1) byte_d bytes
  end.

Definition bits_to_bytes (bit_list0 : list bool) : list Z :=
  bits_to_bytes_loop bit_list0 0 0 [].

(** ** __calculate_checksum *)

Definition calculate_checksum (bytes0 : list Z) : result Z :=
  b0 <- index bytes0 0 ;;
  b1 <- index bytes0 1 ;;
  b2 <- index bytes0 2 ;;
  b3 <- index bytes0 3 ;;
  Return (Z.land b0 255 + Z.land b1 255 + Z.land b2 255 + Z.land b3 255).

(** ** read *)

(** What [read] returns: [(temperature, humidity, checksum)]. *)
Definition reading : Type := (Q * Q * Z)%type.

(** Lines 70-75 of [read]: the checksum test and the reading. *)
Definition read_validate (the_bytes : list Z) : result reading :=
  checksum <- calculate_checksum the_bytes ;;
  b4 <- index the_bytes 4 ;;
  if negb (b4 =? checksum) then Raise DHT11CRCError
  else
    b2 <- index the_bytes 2 ;;
    b3 <- index the_bytes 3 ;;
    let temperature := (inject_Z b2 + inject_Z b3 / 10)%Q in
    b0 <- index the_bytes 0 ;;
    b1 <- index the_bytes 1 ;;
    let humidity := (inject_Z b0 + inject_Z b1 / 10)%Q in
    Return (temperature, humidity, checksum).

(** Lines 65-75 of [read], on the samples [data] that [__collect_input]
    returned. *)
Definition read (data : list Z) : result reading :=
  let pull_up_lengths := parse_data_pull_up_lengths data in
  if negb (Nat.eqb (length pull_up_lengths) 40) then Raise DHT11MissingDataError
  else
    let bits := calculate_bits pull_up_lengths in
    let the_bytes := bits_to_bytes bits in
    read_validate the_bytes.

(** ** __collect_input *)

Definition max_unchanged_count : Z := 100.

(** The locals of the sampling loop. *)
Record collector : Type := mkCollector {
  unchanged_count : Z;
  last : Z;
  data : list Z
}.

Definition collector_init : collector :=
  {| unchanged_count := 0; last := -1; data := [] |}.

(** One pass of the [while True] body.  The pass observes the level
    [current] that [pi.read] returns and, when it gets as far as the last
    [if], the outcome [late] of the test [time.time() - start > 0.1].  The
    boolean of the result tells whether the pass ended in [break]. *)
Definition collect_step (c : collector) (current : Z) (late : bool)
    : collector * bool :=
  let data := data c ++ [current] in
  if negb (last c =? current)
  then (mkCollector 0 current data, late)
  else
    let unchanged_count := unchanged_count c + 1 in
    if unchanged_count >? max_unchanged_count
    then (mkCollector unchanged_count (last c) data, true)
    else (mkCollector unchanged_count (last c) data, late).

(** The loop on a finite record [line] of what the passes observe, one
    pair [(current, late)] per pass.  [None]: the record is used up and
    the loop has not reached a [break]. *)
Fixpoint collect_loop (line : list (Z * bool)) (c : collector)
    : option (list Z) :=
  match line with
  | [] => None
  | (current, late) :: rest =>
      let (c', stop) := collect_step c current late in
      if stop then Some (data c') else collect_loop rest c'
  end.

Definition collect_input (line : list (Z * bool)) : option (list Z) :=
  collect_loop line collector_init.

(** Lines 63-75 of [read]: sampling followed by decoding. *)
Definition read_line (line : list (Z * bool)) : option (result reading) :=
  match collect_input line with
  | Some data => Some (read data)
  | None => None
  end.

End DHT11.

Import DHT11.

(** ** A test signal

    The line as the sensor drives it for a list of bits: idle high, the
    sensor's low response and high acknowledgement, then for every bit a
    low gap followed by a high pulse (one sample for a 0 bit, three for a
    1 bit), and a closing low.  Used only to build concrete inputs. *)

Definition pulse_of_bit (b : bool) : list Z :=
  0 :: (if b then [1; 1; 1] else [1]).

Definition frame_of_bits (bits : list bool) : list Z :=
  [1; 0; 1] ++ flat_map pulse_of_bit bits ++ [0].

Fixpoint bits_of_byte_from (n : nat) (b : Z) : list bool :=
  match n with
  | O => []
  | S k => Z.testbit b (Z.of_nat k) :: bits_of_byte_from k b
  end.

Definition bits_of_bytes (bs : list Z) : list bool :=
  flat_map (bits_of_byte_from 8) bs.

(** ** The parser as a state machine *)

(** The sample each state waits for, and where it goes then; read off the
    five [if state == ...] blocks. *)
Definition awaited (s : state) : Z :=
  match s with
  | STATE_INIT_PULL_DOWN => 0
  | STATE_INIT_PULL_UP => 1
  | STATE_DATA_FIRST_PULL_DOWN => 0
  | STATE_DATA_PULL_UP => 1
  | STATE_DATA_PULL_DOWN => 0
  end.

Definition successor (s : state) : state :=
  match s with
  | STATE_INIT_PULL_DOWN => STATE_INIT_PULL_UP
  | STATE_INIT_PULL_UP => STATE_DATA_FIRST_PULL_DOWN
  | STATE_DATA_FIRST_PULL_DOWN => STATE_DATA_PULL_UP
  | STATE_DATA_PULL_UP => STATE_DATA_PULL_DOWN
  | STATE_DATA_PULL_DOWN => STATE_DATA_PULL_UP
  end.

(** Position in the order INIT_PULL_DOWN, INIT_PULL_UP,
    DATA_FIRST_PULL_DOWN, {DATA_PULL_UP, DATA_PULL_DOWN}. *)
Definition phase (s : state) : Z :=
  match s with
  | STATE_INIT_PULL_DOWN => 1
  | STATE_INIT_PULL_UP => 2
  | STATE_DATA_FIRST_PULL_DOWN => 3
  | STATE_DATA_PULL_UP => 4
  | STATE_DATA_PULL_DOWN => 4
  end.

Definition is_data_state (s : state) : bool :=
  match s with
  | STATE_DATA_PULL_UP | STATE_DATA_PULL_DOWN => true
  | _ => false
  end.

(** ** Specification-side notions for the decoder and the packer *)

(** [min(lengths)] and [max(lengths)] as the specification writes them;
    both are undefined on the empty list. *)
Definition list_min (ls : list Z) : option Z :=
  match ls with
  | [] => None
  | x :: xs => Some (fold_left Z.min xs x)
  end.

Definition list_max (ls : list Z) : option Z :=
  match ls with
  | [] => None
  | x :: xs => Some (fold_left Z.max xs x)
  end.

(** The MSB-first value of bits 8j .. 8j+7, as the specification writes
    it: the sum over k = 0..7 of 2^(7-k) times bit 8j+k. *)
Definition packed_byte (bits : list bool) (j : nat) : Z :=
  fold_right Z.add 0
    (map (fun k => 2 ^ (7 - Z.of_nat k) * Z.b2z (nth (8 * j + k) bits false))
         (seq 0 8)).

Definition is_byte (b : Z) : Prop := 0 <= b <= 255.

(** ** Runs of equal samples *)

(** Scanning a sample list from the left: the previous sample, the length
    of the run of equal samples that ends here, and the longest such run
    met so far. *)
Definition run_step (t : Z * Z * Z) (x : Z) : Z * Z * Z :=
  let '(prev, cur, longest) := t in
  let cur := if x =? prev then cur + 1 else 1 in
  (x, cur, Z.max longest cur).

Definition run_scan (xs : list Z) : Z * Z * Z :=
  fold_left run_step xs (-1, 0, 0).

Definition longest_run (xs : list Z) : Z := snd (run_scan xs).

Definition run_from (t : Z * Z * Z) (xs : list Z) : Z * Z * Z :=
  fold_left run_step xs t.

(** The loop invariant: the scan of the samples so far agrees with the
    loop's [last] and [unchanged_count]. *)
Definition collect_inv (c : collector) : Prop :=
  let '(prev, cur, longest) := run_scan (data c) in
  prev = last c
  /\ 0 <= cur <= unchanged_count c + 1
  /\ 0 <= unchanged_count c <= 100
  /\ longest <= 102.

(** ** Well-formed transmissions

    A line record with [idle] high samples, a low response, a high
    acknowledgement and a first low gap, followed by one high pulse of
    [S w] samples for every entry [w] of [widths], each closed by a low
    gap of [S gap] samples. *)

Definition high_pulse (gap w : nat) : list Z :=
  repeat 1 (S w) ++ repeat 0 (S gap).

Definition signal (idle resp ack gap : nat) (widths : list nat) : list Z :=
  repeat 1 idle ++ repeat 0 (S resp) ++ repeat 1 (S ack) ++ repeat 0 (S gap)
  ++ flat_map (high_pulse gap) widths.

(** Pulse widths for a bit list: [S short] samples for a 0 bit and
    [S long] samples for a 1 bit. *)
Definition widths_of_bits (short long : nat) (bits : list bool) : list nat :=
  map (fun b : bool => if b then long else short) bits.

(** ** Accounting for samples *)

Definition list_sum (ls : list Z) : Z := fold_right Z.add 0 ls.

(** Samples accounted for by a parser state: those that brought the state
    machine where it is, one more than its length for every recorded
    pulse, and the pulse being measured. *)
Definition consumed (p : parser) : Z :=
  list_sum (lengths p) + Z.of_nat (length (lengths p))
  + match st p with
    | STATE_INIT_PULL_DOWN => 0
    | STATE_INIT_PULL_UP => 1
    | STATE_DATA_FIRST_PULL_DOWN => 2
    | STATE_DATA_PULL_UP => 3
    | STATE_DATA_PULL_DOWN => 4 + current_length p
    end.

(** [l] is the length of a run of 1 samples of [data] that has a 0
    sample on either side. *)
Definition recorded_run (data : list Z) (l : Z) : Prop :=
  1 <= l
  /\ exists pre post, data = pre ++ 0 :: repeat 1 (Z.to_nat l) ++ 0 :: post.

(** ** Where the double arithmetic of the source is exact *)

(** Pulse lengths up to this bound keep line 153 free of rounding: with
    0 <= shortest <= 1000 and 0 <= longest <= 2^52 the difference, its
    half and the sum are binary64 numbers. *)
Definition exact_double_bound : Z := 2 ^ 52.

(** A finite binary64 number: m * 2^e with |m| < 2^53 and
    -1074 <= e <= 971. *)
Definition binary64 (q : Q) : Prop :=
  exists m e : Z,
    Z.abs m < 2 ^ 53 /\ -1074 <= e <= 971 /\ (q == inject_Z m * 2 ^ e)%Q.

(** ** Transmissions with gaps of any length

    As [signal], but every low interval has a length of its own: the
    first gap has [S gap0] samples and the pulse [(w, g)] is a high run
    of [S w] samples followed by a low run of [S g] samples. *)

Definition gapped_pulse (wg : nat * nat) : list Z :=
  repeat 1 (S (fst wg)) ++ repeat 0 (S (snd wg)).

Definition transmission (idle resp ack gap0 : nat)
    (pulses : list (nat * nat)) : list Z :=
  repeat 1 idle ++ repeat 0 (S resp) ++ repeat 1 (S ack) ++ repeat 0 (S gap0)
  ++ flat_map gapped_pulse pulses.

(** ** Lemmas on the parser *)

Section Parser.

Lemma parse_run_app (p : parser) (xs ys : list Z) :
  parse_run p (xs ++ ys) = parse_run (parse_run p xs) ys.
Proof. apply fold_left_app. Qed.

Lemma parse_run_cons (p : parser) (x : Z) (xs : list Z) :
  parse_run p (x :: xs) = parse_run (parse_step p x) xs.
Proof. reflexivity. Qed.

Lemma parse_run_snoc (p : parser) (xs : list Z) (x : Z) :
  parse_run p (xs ++ [x]) = parse_step (parse_run p xs) x.
Proof. rewrite parse_run_app. reflexivity. Qed.

(** A step either keeps the state or moves it to its successor, and it
    moves exactly when the sample is the awaited one. *)
Lemma parse_step_st (p : parser) (x : Z) :
  st (parse_step p x) = if x =? awaited (st p) then successor (st p) else st p.
Proof.
  unfold parse_step. destruct (st p); simpl; destruct (x =? _); reflexivity.
Qed.

Lemma parse_step_phase (p : parser) (x : Z) :
  phase (st p) <= phase (st (parse_step p x)).
Proof.
  rewrite parse_step_st. destruct (x =? _); [|lia].
  destruct (st p); simpl; lia.
Qed.

Lemma parse_step_data (p : parser) (x : Z) :
  is_data_state (st p) = true -> is_data_state (st (parse_step p x)) = true.
Proof.
  rewrite parse_step_st. destruct (x =? _); [|tauto].
  destruct (st p); simpl; congruence.
Qed.

Lemma parse_run_phase (xs : list Z) : forall p,
  phase (st p) <= phase (st (parse_run p xs)).
Proof.
  induction xs as [|x xs IH]; intros p; [simpl; lia|].
  rewrite parse_run_cons.
  specialize (IH (parse_step p x)). pose proof (parse_step_phase p x). lia.
Qed.

Lemma parse_run_data (xs : list Z) : forall p,
  is_data_state (st p) = true -> is_data_state (st (parse_run p xs)) = true.
Proof.
  induction xs as [|x xs IH]; intros p Hp; [exact Hp|].
  rewrite parse_run_cons. apply IH, parse_step_data, Hp.
Qed.

(** Samples other than the awaited one leave the state alone. *)
Lemma parse_run_waiting (xs : list Z) : forall p,
  Forall (fun x => x <> awaited (st p)) xs -> st (parse_run p xs) = st p.
Proof.
  induction xs as [|x xs IH]; intros p Hall; [reflexivity|].
  inversion Hall as [|? ? Hx Hxs]; subst.
  assert (Hst : st (parse_step p x) = st p).
  { rewrite parse_step_st. destruct (Z.eqb_spec x (awaited (st p))); congruence. }
  rewrite parse_run_cons, IH; [exact Hst|]. rewrite Hst. exact Hxs.
Qed.

(** The counter never goes below zero. *)
Lemma parse_step_counter (p : parser) (x : Z) :
  0 <= current_length p -> 0 <= current_length (parse_step p x).
Proof.
  intros Hc. unfold parse_step.
  destruct (st p); destruct (x =? _); simpl; lia.
Qed.

Lemma parse_step_lengths (p : parser) (x : Z) :
  0 <= current_length p ->
  Forall (fun l => 1 <= l) (lengths p) ->
  Forall (fun l => 1 <= l) (lengths (parse_step p x)).
Proof.
  intros Hc Hl. unfold parse_step.
  destruct (st p); destruct (x =? _); simpl; try exact Hl.
  apply Forall_app. split; [exact Hl|]. constructor; [lia|constructor].
Qed.

Lemma parse_run_lengths (xs : list Z) : forall p,
  0 <= current_length p ->
  Forall (fun l => 1 <= l) (lengths p) ->
  0 <= current_length (parse_run p xs)
  /\ Forall (fun l => 1 <= l) (lengths (parse_run p xs)).
Proof.
  induction xs as [|x xs IH]; intros p Hc Hl; [split; assumption|].
  rewrite parse_run_cons. apply IH.
  - apply parse_step_counter, Hc.
  - apply parse_step_lengths; assumption.
Qed.

(** In DATA_PULL_DOWN, [n] further high samples only advance the counter. *)
Lemma parse_run_high (n : nat) : forall (ls : list Z) (c : Z),
  parse_run (mkParser STATE_DATA_PULL_DOWN ls c) (repeat 1 n)
  = mkParser STATE_DATA_PULL_DOWN ls (c + Z.of_nat n).
Proof.
  induction n as [|n IH]; intros ls c.
  - simpl. f_equal. lia.
  - cbn [repeat]. rewrite parse_run_cons. unfold parse_step. simpl.
    rewrite IH. f_equal. lia.
Qed.

(** In DATA_PULL_UP, [n] low samples only advance the counter. *)
Lemma parse_run_low (n : nat) : forall (ls : list Z) (c : Z),
  parse_run (mkParser STATE_DATA_PULL_UP ls c) (repeat 0 n)
  = mkParser STATE_DATA_PULL_UP ls (c + Z.of_nat n).
Proof.
  induction n as [|n IH]; intros ls c.
  - simpl. f_equal. lia.
  - cbn [repeat]. rewrite parse_run_cons. unfold parse_step. simpl.
    rewrite IH. f_equal. lia.
Qed.

(** A high run of [S k] samples closed by a low run of [S m] samples,
    met in DATA_PULL_UP: one length is recorded, and it is [S k]. *)
Lemma parse_run_pulse (k m : nat) (ls : list Z) (c : Z) :
  parse_run (mkParser STATE_DATA_PULL_UP ls c)
            (repeat 1 (S k) ++ repeat 0 (S m))
  = mkParser STATE_DATA_PULL_UP (ls ++ [Z.of_nat (S k)])
             (Z.of_nat (S k) + Z.of_nat m).
Proof.
  rewrite parse_run_app.
  assert (Hhigh : parse_run (mkParser STATE_DATA_PULL_UP ls c) (repeat 1 (S k))
                  = mkParser STATE_DATA_PULL_DOWN ls (Z.of_nat k)).
  { cbn [repeat]. rewrite parse_run_cons.
    change (parse_step (mkParser STATE_DATA_PULL_UP ls c) 1)
      with (mkParser STATE_DATA_PULL_DOWN ls 0).
    rewrite parse_run_high. reflexivity. }
  rewrite Hhigh. cbn [repeat]. rewrite parse_run_cons.
  change (parse_step (mkParser STATE_DATA_PULL_DOWN ls (Z.of_nat k)) 0)
    with (mkParser STATE_DATA_PULL_UP (ls ++ [Z.of_nat k + 1]) (Z.of_nat k + 1)).
  rewrite parse_run_low.
  replace (Z.of_nat k + 1) with (Z.of_nat (S k)) by lia. reflexivity.
Qed.

End Parser.

(** ** Claims about the pulse parser *)

(** C4, as the claim states it, fails: a high run of 3 samples followed
    by a low run of 5 samples records 3, the length of the high run, and
    not 5, the length of the low run. *)
Lemma C4_low_run_not_recorded :
  parse_data_pull_up_lengths ([1; 0; 1; 0] ++ repeat 1 3 ++ repeat 0 5) = [3]
  /\ parse_data_pull_up_lengths ([1; 0; 1; 0] ++ repeat 1 3 ++ repeat 0 5)
     <> [Z.of_nat 5].
Proof. split; [reflexivity | discriminate]. Qed.

(** C4, amended: in DATA_PULL_UP a 1 sample resets the counter to zero and
    moves to DATA_PULL_DOWN; for a run of k >= 1 consecutive 1 samples
    followed by m >= 1 consecutive 0 samples, exactly one value is
    appended and it is k, the sample count of the line-high run (the k-1
    further 1 samples plus the 0 sample that ends the run), whatever m
    is. *)
Theorem C4_high_run_recorded (p : parser) (k m : nat) :
  st p = STATE_DATA_PULL_UP ->
  current_length (parse_step p 1) = 0
  /\ st (parse_step p 1) = STATE_DATA_PULL_DOWN
  /\ lengths (parse_run p (repeat 1 (S k) ++ repeat 0 (S m)))
     = lengths p ++ [Z.of_nat (S k)].
Proof.
  intros Hst. destruct p as [s ls c]. simpl in Hst. subst s.
  split; [reflexivity|]. split; [reflexivity|].
  rewrite parse_run_pulse. reflexivity.
Qed.

Lemma C4_high_run_recorded_witness :
  st (parse_run parser_init [1; 0; 1; 0]) = STATE_DATA_PULL_UP
  /\ lengths (parse_run (parse_run parser_init [1; 0; 1; 0])
                        (repeat 1 3 ++ repeat 0 5))
     = [] ++ [3].
Proof.
  split; [reflexivity|].
  apply (C4_high_run_recorded (parse_run parser_init [1; 0; 1; 0]) 2 4).
  reflexivity.
Defined.

(** C8: along the run of the parser on any input, the state never moves
    backward in the order INIT_PULL_DOWN, INIT_PULL_UP,
    DATA_FIRST_PULL_DOWN, {DATA_PULL_UP, DATA_PULL_DOWN}: the state after
    a prefix [data] is never later in that order than the state after
    [data ++ more]; a single sample either does not lower the state's
    number or is the step DATA_PULL_DOWN -> DATA_PULL_UP; and once the
    state is one of the two data states it stays one of them. *)
Theorem C8_states_never_regress (data more : list Z) (x : Z) :
  let s := st (parse_run parser_init data) in
  let s1 := st (parse_run parser_init (data ++ [x])) in
  let s' := st (parse_run parser_init (data ++ more)) in
  phase s <= phase s'
  /\ (state_code s <= state_code s1
      \/ (s = STATE_DATA_PULL_DOWN /\ s1 = STATE_DATA_PULL_UP))
  /\ implb (is_data_state s) (is_data_state s') = true.
Proof.
  cbv zeta. rewrite parse_run_snoc, parse_run_app.
  set (p := parse_run parser_init data). repeat split.
  - apply parse_run_phase.
  - rewrite parse_step_st. destruct (x =? _); [|lia].
    destruct (st p); simpl; auto; lia.
  - destruct (is_data_state (st p)) eqn:Hd; [|reflexivity].
    simpl. apply parse_run_data, Hd.
Qed.

(** C9: from any parser state, samples other than the one the state waits
    for leave the state unchanged, however many there are, and the first
    awaited sample after them moves the state to its successor, which is
    a different state. *)
Theorem C9_waits_then_advances (p : parser) (skipped : list Z) :
  Forall (fun x => x <> awaited (st p)) skipped ->
  st (parse_run p skipped) = st p
  /\ st (parse_run p (skipped ++ [awaited (st p)])) = successor (st p)
  /\ successor (st p) <> st p.
Proof.
  intros Hskip. pose proof (parse_run_waiting skipped p Hskip) as Hst.
  repeat split.
  - exact Hst.
  - rewrite parse_run_snoc, parse_step_st, Hst, Z.eqb_refl. reflexivity.
  - destruct (st p); discriminate.
Qed.

Lemma C9_waits_then_advances_witness :
  st (parse_run (mkParser STATE_DATA_PULL_DOWN [7] 2) [1; 1; 1])
  = STATE_DATA_PULL_DOWN
  /\ st (parse_run (mkParser STATE_DATA_PULL_DOWN [7] 2) ([1; 1; 1] ++ [0]))
     = STATE_DATA_PULL_UP.
Proof.
  pose proof (C9_waits_then_advances
                (mkParser STATE_DATA_PULL_DOWN [7] 2) [1; 1; 1]) as H.
  simpl in H.
  assert (Hskip : Forall (fun x => x <> 0) [1; 1; 1])
    by (repeat constructor; discriminate).
  destruct (H Hskip) as (H1 & H2 & _). split; assumption.
Defined.

(** C10: every entry of the list the pulse parser returns is at least 1. *)
Theorem C10_lengths_positive (data : list Z) :
  Forall (fun l => 1 <= l) (parse_data_pull_up_lengths data).
Proof.
  unfold parse_data_pull_up_lengths.
  apply parse_run_lengths; simpl; [lia | constructor].
Qed.

(** ** The bit decoder *)

Section Decoder.

Lemma scan_step_min_max (s l x : Z) :
  scan_step (s, l) x = (Z.min s x, Z.max l x).
Proof.
  unfold scan_step. f_equal.
  - destruct (Z.ltb_spec x s); lia.
  - rewrite Z.gtb_ltb. destruct (Z.ltb_spec l x); lia.
Qed.

Lemma fold_scan_min_max (ls : list Z) : forall s l,
  fold_left scan_step ls (s, l) = (fold_left Z.min ls s, fold_left Z.max ls l).
Proof.
  induction ls as [|x ls IH]; intros s l; [reflexivity|].
  cbn [fold_left]. rewrite scan_step_min_max. apply IH.
Qed.

Lemma fold_min_init (ls : list Z) : forall a b,
  fold_left Z.min ls (Z.min a b) = Z.min a (fold_left Z.min ls b).
Proof.
  induction ls as [|x ls IH]; intros a b; [reflexivity|].
  cbn [fold_left]. rewrite <- Z.min_assoc. apply IH.
Qed.

Lemma fold_max_init (ls : list Z) : forall a b,
  fold_left Z.max ls (Z.max a b) = Z.max a (fold_left Z.max ls b).
Proof.
  induction ls as [|x ls IH]; intros a b; [reflexivity|].
  cbn [fold_left]. rewrite <- Z.max_assoc. apply IH.
Qed.

Lemma fold_max_ge (ls : list Z) : forall a, a <= fold_left Z.max ls a.
Proof.
  induction ls as [|x ls IH]; intros a; cbn [fold_left]; [lia|].
  specialize (IH (Z.max a x)). lia.
Qed.

Lemma fold_min_le (ls : list Z) : forall a, fold_left Z.min ls a <= a.
Proof.
  induction ls as [|x ls IH]; intros a; cbn [fold_left]; [lia|].
  specialize (IH (Z.min a x)). lia.
Qed.

Lemma fold_min_le_in (ls : list Z) (l : Z) : forall a,
  In l ls -> fold_left Z.min ls a <= l.
Proof.
  induction ls as [|x ls IH]; intros a Hin; [destruct Hin|].
  cbn [fold_left]. destruct Hin as [Hx|Hin].
  - subst x. pose proof (fold_min_le ls (Z.min a l)). lia.
  - apply IH, Hin.
Qed.

(** What the first loop really computes: the sentinels 1000 and 0 take
    part in the minimum and the maximum. *)
Lemma shortest_pull_up_cons (x : Z) (xs : list Z) :
  shortest_pull_up (x :: xs) = Z.min 1000 (fold_left Z.min xs x).
Proof.
  unfold shortest_pull_up, scan. rewrite fold_scan_min_max. cbn [fst fold_left].
  apply fold_min_init.
Qed.

Lemma longest_pull_up_cons (x : Z) (xs : list Z) :
  longest_pull_up (x :: xs) = Z.max 0 (fold_left Z.max xs x).
Proof.
  unfold longest_pull_up, scan. rewrite fold_scan_min_max. cbn [snd fold_left].
  apply fold_max_init.
Qed.

Lemma Qgtb_lt (x y : Q) : Qgtb x y = true <-> (y < x)%Q.
Proof.
  unfold Qgtb. rewrite negb_true_iff, <- not_true_iff_false, Qle_bool_iff.
  split; [apply Qnot_le_lt | apply Qlt_not_le].
Qed.

Lemma calculate_bits_length (ls : list Z) :
  length (calculate_bits ls) = length ls.
Proof. unfold calculate_bits. apply length_map. Qed.

Lemma calculate_bits_nth (ls : list Z) (i : nat) (l : Z) :
  nth_error ls i = Some l ->
  nth_error (calculate_bits ls) i = Some (Qgtb (inject_Z l) (halfway ls)).
Proof.
  intros Hl. unfold calculate_bits. rewrite nth_error_map, Hl. simpl.
  destruct (Qgtb _ _); reflexivity.
Qed.

End Decoder.

(** C2, as the claim states it, fails: on forty pulses of length 2000 the
    decoder's [shortest] is the sentinel 1000, not the minimum 2000, so
    [halfway] is 1500 and every bit decodes true, although no length
    exceeds the midpoint 2000 of the claim. *)
Lemma C2_sentinel_below_minimum :
  let ls := repeat 2000 40 in
  length ls = 40%nat
  /\ Forall (fun l => 0 <= l) ls
  /\ list_min ls = Some 2000
  /\ list_max ls = Some 2000
  /\ shortest_pull_up ls = 1000
  /\ (halfway ls == 1500)%Q
  /\ nth_error (calculate_bits ls) 0 = Some true
  /\ ~ (inject_Z 2000 + inject_Z (2000 - 2000) / 2 < inject_Z 2000)%Q.
Proof.
  cbv zeta. split; [reflexivity|]. split.
  { apply Forall_forall. intros l Hl. apply repeat_spec in Hl. lia. }
  repeat split; try reflexivity. intros H. discriminate H.
Qed.

(** C2, amended: for every sequence of exactly 40 integers between 0 and
    2^52 whose minimum is at most 1000, the decoder computes
    shortest = min(lengths), longest = max(lengths),
    halfway = shortest + (longest - shortest)/2, and returns exactly 40
    booleans, the i-th being true if and only if lengths[i] strictly
    exceeds halfway. *)
Theorem C2_decoder_midpoint (ls : list Z) :
  length ls = 40%nat ->
  Forall (fun l => 0 <= l <= exact_double_bound) ls ->
  (exists l, In l ls /\ l <= 1000) ->
  exists lo hi : Z,
    list_min ls = Some lo /\ list_max ls = Some hi
    /\ shortest_pull_up ls = lo /\ longest_pull_up ls = hi
    /\ halfway ls = (inject_Z lo + inject_Z (hi - lo) / 2)%Q
    /\ length (calculate_bits ls) = 40%nat
    /\ forall (i : nat) (l : Z), nth_error ls i = Some l ->
         exists b : bool,
           nth_error (calculate_bits ls) i = Some b
           /\ (b = true <->
               (inject_Z lo + inject_Z (hi - lo) / 2 < inject_Z l)%Q).
Proof.
  intros Hlen Hpos (l0 & Hin & Hl0).
  destruct ls as [|x xs]; [discriminate Hlen|].
  assert (Hlo : shortest_pull_up (x :: xs) = fold_left Z.min xs x).
  { rewrite shortest_pull_up_cons.
    assert (fold_left Z.min xs x <= l0); [|lia].
    destruct Hin as [Hx|Hin].
    - subst x. apply fold_min_le.
    - apply fold_min_le_in, Hin. }
  assert (Hhi : longest_pull_up (x :: xs) = fold_left Z.max xs x).
  { rewrite longest_pull_up_cons. pose proof (fold_max_ge xs x).
    inversion Hpos; subst. lia. }
  exists (fold_left Z.min xs x), (fold_left Z.max xs x).
  split; [reflexivity|]. split; [reflexivity|].
  split; [exact Hlo|]. split; [exact Hhi|].
  assert (Hhalf : halfway (x :: xs)
                  = (inject_Z (fold_left Z.min xs x)
                     + inject_Z (fold_left Z.max xs x - fold_left Z.min xs x) / 2)%Q).
  { unfold halfway. cbv zeta. rewrite Hlo, Hhi. reflexivity. }
  split; [exact Hhalf|].
  split; [rewrite calculate_bits_length; exact Hlen|].
  intros i l Hl. eexists. split; [apply calculate_bits_nth, Hl|].
  rewrite Hhalf. apply Qgtb_lt.
Qed.

Lemma C2_decoder_midpoint_witness :
  exists lo hi : Z,
    list_min (repeat 10 20 ++ repeat 70 20) = Some lo
    /\ list_max (repeat 10 20 ++ repeat 70 20) = Some hi
    /\ shortest_pull_up (repeat 10 20 ++ repeat 70 20) = lo
    /\ longest_pull_up (repeat 10 20 ++ repeat 70 20) = hi.
Proof.
  destruct (C2_decoder_midpoint (repeat 10 20 ++ repeat 70 20))
    as (lo & hi & H1 & H2 & H3 & H4 & _).
  - reflexivity.
  - apply Forall_forall. intros l Hl. apply in_app_or in Hl.
    unfold exact_double_bound.
    destruct Hl as [Hl|Hl]; apply repeat_spec in Hl; lia.
  - exists 10. split; [left; reflexivity | lia].
  - exists lo, hi. repeat split; assumption.
Defined.

(** C7: a pulse length exactly equal to halfway decodes as false, for
    pulse lengths between 0 and 2^52 (where halfway is computed without
    rounding); for forty pulses of length 10, halfway is 10 and all forty
    bits are false. *)
Theorem C7_tie_decodes_false :
  (forall (ls : list Z) (i : nat) (l : Z),
      Forall (fun x => 0 <= x <= exact_double_bound) ls ->
      nth_error ls i = Some l ->
      (inject_Z l == halfway ls)%Q ->
      nth_error (calculate_bits ls) i = Some false)
  /\ (halfway (repeat 10%Z 40) == 10)%Q
  /\ calculate_bits (repeat 10 40) = repeat false 40.
Proof.
  split; [|split; reflexivity].
  intros ls i l _ Hl Heq. rewrite (calculate_bits_nth ls i l Hl). f_equal.
  unfold Qgtb. apply negb_false_iff, Qle_bool_iff.
  rewrite Heq. apply Qle_refl.
Qed.

Lemma C7_tie_decodes_false_witness :
  nth_error (calculate_bits (repeat 10 40)) 7 = Some false.
Proof.
  apply (proj1 C7_tie_decodes_false (repeat 10 40) 7%nat 10);
    [|reflexivity|reflexivity].
  apply Forall_forall. intros x Hx. apply repeat_spec in Hx.
  unfold exact_double_bound. lia.
Defined.

(** ** The byte packer *)

Section Packer.

Lemma shift_or_bit (byte_d : Z) (bit : bool) :
  (if bit then Z.lor (Z.shiftl byte_d 1) 1 else Z.lor (Z.shiftl byte_d 1) 0)
  = 2 * byte_d + Z.b2z bit.
Proof.
  rewrite Z.shiftl_mul_pow2 by lia. change (2 ^ 1) with 2.
  destruct bit; simpl Z.b2z.
  - rewrite Z.mul_comm. apply Z.bits_inj'. intros n Hn.
    rewrite Z.lor_spec.
    destruct (Z.eq_dec n 0) as [->|Hn0].
    + rewrite Z.testbit_odd_0. apply orb_true_r.
    + replace n with (Z.succ (n - 1)) by lia.
      rewrite Z.testbit_odd_succ, Z.testbit_even_succ by lia.
      replace (Z.testbit 1 (Z.succ (n - 1))) with false; [apply orb_false_r|].
      symmetry. apply Z.bits_above_log2; simpl; lia.
  - rewrite Z.lor_0_r. lia.
Qed.

(** A step at an index that is not the last of its octet. *)
Lemma loop_step_keep (bit : bool) (rest : list bool) (i byte_d : Z)
    (bytes : list Z) :
  (i + 1) mod 8 <> 0 ->
  bits_to_bytes_loop (bit :: rest) i byte_d bytes
  = bits_to_bytes_loop rest (i + 1) (2 * byte_d + Z.b2z bit) bytes.
Proof.
  intros Hi. cbn [bits_to_bytes_loop]. cbv zeta. rewrite shift_or_bit.
  destruct (Z.eqb_spec ((i + 1) mod 8) 0); [contradiction|reflexivity].
Qed.

(** A step at the last index of an octet. *)
Lemma loop_step_flush (bit : bool) (rest : list bool) (i byte_d : Z)
    (bytes : list Z) :
  (i + 1) mod 8 = 0 ->
  bits_to_bytes_loop (bit :: rest) i byte_d bytes
  = bits_to_bytes_loop rest (i + 1) 0 (bytes ++ [2 * byte_d + Z.b2z bit]).
Proof.
  intros Hi. cbn [bits_to_bytes_loop]. cbv zeta. rewrite shift_or_bit, Hi.
  reflexivity.
Qed.

(** Eight bits from an octet boundary: one byte is appended. *)
Lemma loop_octet (b0 b1 b2 b3 b4 b5 b6 b7 : bool) (rest : list bool)
    (q : Z) (bytes : list Z) :
  bits_to_bytes_loop (b0 :: b1 :: b2 :: b3 :: b4 :: b5 :: b6 :: b7 :: rest)
                     (8 * q) 0 bytes
  = bits_to_bytes_loop rest (8 * (q + 1)) 0
      (bytes ++ [128 * Z.b2z b0 + 64 * Z.b2z b1 + 32 * Z.b2z b2
                 + 16 * Z.b2z b3 + 8 * Z.b2z b4 + 4 * Z.b2z b5
                 + 2 * Z.b2z b6 + Z.b2z b7]).
Proof.
  assert (Hmod : forall k, 0 <= k < 8 -> (8 * q + k) mod 8 = k).
  { intros k Hk. rewrite Z.add_comm, Z.mul_comm, Z.mod_add by lia.
    apply Z.mod_small, Hk. }
  assert (Hkeep : forall k, 0 < k < 8 -> (8 * q + (k - 1) + 1) mod 8 <> 0).
  { intros k Hk. replace (8 * q + (k - 1) + 1) with (8 * q + k) by lia.
    rewrite Hmod; lia. }
  replace (8 * q) with (8 * q + (1 - 1)) at 1 by lia.
  rewrite loop_step_keep by (apply Hkeep; lia).
  replace (8 * q + (1 - 1) + 1) with (8 * q + (2 - 1)) by lia.
  rewrite loop_step_keep by (apply Hkeep; lia).
  replace (8 * q + (2 - 1) + 1) with (8 * q + (3 - 1)) by lia.
  rewrite loop_step_keep by (apply Hkeep; lia).
  replace (8 * q + (3 - 1) + 1) with (8 * q + (4 - 1)) by lia.
  rewrite loop_step_keep by (apply Hkeep; lia).
  replace (8 * q + (4 - 1) + 1) with (8 * q + (5 - 1)) by lia.
  rewrite loop_step_keep by (apply Hkeep; lia).
  replace (8 * q + (5 - 1) + 1) with (8 * q + (6 - 1)) by lia.
  rewrite loop_step_keep by (apply Hkeep; lia).
  replace (8 * q + (6 - 1) + 1) with (8 * q + (7 - 1)) by lia.
  rewrite loop_step_keep by (apply Hkeep; lia).
  replace (8 * q + (7 - 1) + 1) with (8 * q + 7) by lia.
  rewrite loop_step_flush.
  - replace (8 * q + 7 + 1) with (8 * (q + 1)) by lia.
    f_equal. f_equal. f_equal. lia.
  - replace (8 * q + 7 + 1) with (8 * (q + 1)) by lia.
    rewrite Z.mul_comm. apply Z.mod_mul. lia.
Qed.

Lemma octet_is_byte (b0 b1 b2 b3 b4 b5 b6 b7 : bool) :
  is_byte (128 * Z.b2z b0 + 64 * Z.b2z b1 + 32 * Z.b2z b2 + 16 * Z.b2z b3
           + 8 * Z.b2z b4 + 4 * Z.b2z b5 + 2 * Z.b2z b6 + Z.b2z b7).
Proof.
  unfold is_byte.
  destruct b0, b1, b2, b3, b4, b5, b6, b7; simpl Z.b2z; lia.
Qed.

End Packer.

Section PackerForty.

Ltac uncons bits :=
  let b := fresh "b" in
  destruct bits as [|b bits]; [discriminate|].

(** Forty bits give the five MSB-first bytes. *)
Lemma bits_to_bytes_forty (bits : list bool) :
  length bits = 40%nat ->
  bits_to_bytes bits = map (packed_byte bits) (seq 0 5)
  /\ Forall is_byte (bits_to_bytes bits).
Proof.
  intros Hlen. do 40 (uncons bits). destruct bits; [clear Hlen|discriminate].
  unfold bits_to_bytes. change 0 with (8 * 0) at 1 3.
  split; do 5 rewrite loop_octet; cbn [bits_to_bytes_loop app].
  - unfold packed_byte. cbn [map seq fold_right nth Nat.mul Nat.add].
    repeat match goal with
           | |- context [2 ^ ?e] =>
               let v := eval vm_compute in (2 ^ e) in change (2 ^ e) with v
           end.
    repeat (apply f_equal2; [lia|]). reflexivity.
  - repeat (constructor; [apply octet_is_byte|]). constructor.
Qed.

End PackerForty.

(** C5: for every list of exactly 40 booleans the byte packer returns
    exactly 5 integers, each in 0..255, the j-th being the MSB-first
    packing of bits 8j .. 8j+7. *)
Theorem C5_forty_bits_five_bytes (bits : list bool) :
  length bits = 40%nat ->
  length (bits_to_bytes bits) = 5%nat
  /\ Forall is_byte (bits_to_bytes bits)
  /\ forall j : nat, (j < 5)%nat ->
       nth_error (bits_to_bytes bits) j = Some (packed_byte bits j).
Proof.
  intros Hlen. destruct (bits_to_bytes_forty bits Hlen) as [Heq Hbytes].
  split; [rewrite Heq; reflexivity|]. split; [exact Hbytes|].
  intros j Hj. rewrite Heq.
  do 5 (destruct j as [|j]; [reflexivity|]). lia.
Qed.

Lemma C5_forty_bits_five_bytes_witness :
  length (bits_of_bytes [60; 0; 25; 0; 85]) = 40%nat
  /\ nth_error (bits_to_bytes (bits_of_bytes [60; 0; 25; 0; 85])) 2
     = Some (packed_byte (bits_of_bytes [60; 0; 25; 0; 85]) 2).
Proof.
  split; [reflexivity|].
  apply (C5_forty_bits_five_bytes (bits_of_bytes [60; 0; 25; 0; 85]));
    [reflexivity | lia].
Defined.

Example pack_60_25 :
  bits_to_bytes (bits_of_bytes [60; 0; 25; 0; 85]) = [60; 0; 25; 0; 85].
Proof. reflexivity. Qed.

(** ** The checksum step and [read] *)

Example read_ok_60_25 :
  read_validate [60; 0; 25; 0; 85]
  = Return ((inject_Z 25 + inject_Z 0 / 10)%Q, (inject_Z 60 + inject_Z 0 / 10)%Q, 85).
Proof. reflexivity. Qed.

Example read_crc_60_25 : read_validate [60; 0; 25; 0; 86] = Raise DHT11CRCError.
Proof. reflexivity. Qed.

Example parse_two_pulses :
  parse_data_pull_up_lengths [1; 1; 0; 0; 1; 1; 0; 1; 0; 0; 1; 1; 1; 0; 1]
  = [1; 3].
Proof. reflexivity. Qed.

Example decode_short_long :
  calculate_bits [10; 70; 70; 10; 12; 68] = [false; true; true; false; false; true].
Proof. reflexivity. Qed.

Example read_frame_60_25 :
  read (frame_of_bits (bits_of_bytes [60; 0; 25; 0; 85]))
  = read_validate [60; 0; 25; 0; 85].
Proof. vm_compute. reflexivity. Qed.

Example read_short_frame :
  read (frame_of_bits [true; false; true]) = Raise DHT11MissingDataError.
Proof. reflexivity. Qed.

Section Validate.

Lemma land_byte (b : Z) : is_byte b -> Z.land b 255 = b.
Proof.
  intros Hb. change 255 with (Z.ones 8). rewrite Z.land_ones by lia.
  apply Z.mod_small. unfold is_byte in Hb. simpl. lia.
Qed.

(** [read_validate] on five bytes, with the indexing resolved. *)
Lemma read_validate_five (b0 b1 b2 b3 b4 : Z) :
  is_byte b0 -> is_byte b1 -> is_byte b2 -> is_byte b3 ->
  read_validate [b0; b1; b2; b3; b4]
  = if b4 =? b0 + b1 + b2 + b3
    then Return ((inject_Z b2 + inject_Z b3 / 10)%Q,
                 (inject_Z b0 + inject_Z b1 / 10)%Q,
                 b0 + b1 + b2 + b3)
    else Raise DHT11CRCError.
Proof.
  intros H0 H1 H2 H3. unfold read_validate, calculate_checksum, index, bind.
  cbn [nth_error]. rewrite !land_byte by assumption.
  destruct (b4 =? b0 + b1 + b2 + b3); reflexivity.
Qed.

Lemma read_validate_not_missing (the_bytes : list Z) :
  read_validate the_bytes <> Raise DHT11MissingDataError.
Proof.
  unfold read_validate, calculate_checksum, index, bind.
  repeat match goal with
         | |- context [match nth_error ?l ?i with _ => _ end] =>
             destruct (nth_error l i)
         | |- context [if ?c then _ else _] => destruct c
         end; discriminate.
Qed.

(** With forty pulse lengths, [read] is [read_validate] on five bytes. *)
Lemma read_forty (data : list Z) :
  length (parse_data_pull_up_lengths data) = 40%nat ->
  exists b0 b1 b2 b3 b4 : Z,
    bits_to_bytes (calculate_bits (parse_data_pull_up_lengths data))
    = [b0; b1; b2; b3; b4]
    /\ (is_byte b0 /\ is_byte b1 /\ is_byte b2 /\ is_byte b3 /\ is_byte b4)
    /\ read data = read_validate [b0; b1; b2; b3; b4].
Proof.
  intros Hlen. unfold read. cbv zeta. rewrite Hlen. cbn [Nat.eqb negb].
  set (bits := calculate_bits (parse_data_pull_up_lengths data)).
  assert (Hbits : length bits = 40%nat)
    by (unfold bits; rewrite calculate_bits_length; exact Hlen).
  destruct (bits_to_bytes_forty bits Hbits) as [Heq Hbytes].
  rewrite Heq in Hbytes |- *. cbn [map seq] in Hbytes |- *.
  do 5 eexists. split; [reflexivity|]. split; [|reflexivity].
  repeat match goal with
         | H : Forall _ (_ :: _) |- _ => inversion H; clear H; subst
         end.
  tauto.
Qed.

End Validate.

(** C1: the code at the five bytes 200, 100, 0, 0, 44.  Every byte is in
    0..255 and the fifth is (200+100+0+0) & 0xFF = 44, so the claim
    expects a reading; [__calculate_checksum] returns the unmasked sum
    300 and [read] raises DHT11CRCError, both on the bytes and on a
    sample sequence that decodes to them. *)
Theorem C1_wrapped_checksum_rejected :
  let the_bytes := [200; 100; 0; 0; 44] in
  let data := frame_of_bits (bits_of_bytes the_bytes) in
  Forall is_byte the_bytes
  /\ 44 = Z.land (200 + 100 + 0 + 0) 255
  /\ calculate_checksum the_bytes = Return 300
  /\ read_validate the_bytes = Raise DHT11CRCError
  /\ bits_to_bytes (calculate_bits (parse_data_pull_up_lengths data))
     = the_bytes
  /\ read data = Raise DHT11CRCError.
Proof.
  cbv zeta. split.
  { repeat constructor; unfold is_byte; lia. }
  repeat split; vm_compute; reflexivity.
Qed.

(** C3: [read] raises DHT11MissingDataError exactly when the pulse parser
    does not return 40 entries; with 40 entries it goes on to the bit
    decoder, the byte packer and the checksum step, and ends with a
    reading or with DHT11CRCError. *)
Theorem C3_missing_data_iff_not_forty (data : list Z) :
  (read data = Raise DHT11MissingDataError
   <-> length (parse_data_pull_up_lengths data) <> 40%nat)
  /\ (length (parse_data_pull_up_lengths data) = 40%nat ->
      read data
      = read_validate
          (bits_to_bytes (calculate_bits (parse_data_pull_up_lengths data)))
      /\ read data <> Raise DHT11MissingDataError
      /\ ((exists r, read data = Return r)
          \/ read data = Raise DHT11CRCError)).
Proof.
  assert (Hforty : length (parse_data_pull_up_lengths data) = 40%nat ->
                   read data
                   = read_validate
                       (bits_to_bytes
                          (calculate_bits (parse_data_pull_up_lengths data)))).
  { intros Hlen. unfold read. cbv zeta. rewrite Hlen. reflexivity. }
  split.
  - split.
    + intros Hraise Hlen. rewrite (Hforty Hlen) in Hraise.
      exact (read_validate_not_missing _ Hraise).
    + intros Hlen. unfold read. cbv zeta.
      destruct (Nat.eqb_spec (length (parse_data_pull_up_lengths data)) 40);
        [contradiction|reflexivity].
  - intros Hlen. split; [exact (Hforty Hlen)|]. split.
    + rewrite (Hforty Hlen). apply read_validate_not_missing.
    + destruct (read_forty data Hlen)
        as (b0 & b1 & b2 & b3 & b4 & _ & (H0 & H1 & H2 & H3 & _) & Hread).
      rewrite Hread, read_validate_five by assumption.
      destruct (b4 =? b0 + b1 + b2 + b3); [left; eexists; reflexivity|].
      right. reflexivity.
Qed.

Lemma C3_missing_data_iff_not_forty_witness :
  length (parse_data_pull_up_lengths
            (frame_of_bits (bits_of_bytes [60; 0; 25; 0; 85]))) = 40%nat
  /\ read (frame_of_bits (bits_of_bytes [60; 0; 25; 0; 85]))
     <> Raise DHT11MissingDataError.
Proof.
  split; [vm_compute; reflexivity|].
  apply (proj2 (C3_missing_data_iff_not_forty
                  (frame_of_bits (bits_of_bytes [60; 0; 25; 0; 85])))).
  vm_compute. reflexivity.
Defined.

(** C6: the acceptance test of [read] is equality with the untruncated
    sum.  On five bytes, a reading is returned if and only if the fifth
    equals b0+b1+b2+b3, and DHT11CRCError is raised otherwise; so when
    the sum is 256 or more, DHT11CRCError is raised whatever the fifth
    byte is.  On a sample sequence with forty pulses, [read] returns a
    reading if and only if the decoded bytes satisfy that equality. *)
Theorem C6_checksum_exact_sum :
  (forall b0 b1 b2 b3 b4 : Z,
      is_byte b0 -> is_byte b1 -> is_byte b2 -> is_byte b3 -> is_byte b4 ->
      ((exists r, read_validate [b0; b1; b2; b3; b4] = Return r)
       <-> b4 = b0 + b1 + b2 + b3)
      /\ (b4 <> b0 + b1 + b2 + b3 ->
          read_validate [b0; b1; b2; b3; b4] = Raise DHT11CRCError)
      /\ (256 <= b0 + b1 + b2 + b3 ->
          read_validate [b0; b1; b2; b3; b4] = Raise DHT11CRCError))
  /\ (forall data : list Z,
         (exists r, read data = Return r)
         <-> exists b0 b1 b2 b3 b4 : Z,
               length (parse_data_pull_up_lengths data) = 40%nat
               /\ bits_to_bytes
                    (calculate_bits (parse_data_pull_up_lengths data))
                  = [b0; b1; b2; b3; b4]
               /\ b4 = b0 + b1 + b2 + b3).
Proof.
  assert (Hbytes : forall b0 b1 b2 b3 b4 : Z,
             is_byte b0 -> is_byte b1 -> is_byte b2 -> is_byte b3 ->
             ((exists r, read_validate [b0; b1; b2; b3; b4] = Return r)
              <-> b4 = b0 + b1 + b2 + b3)
             /\ (b4 <> b0 + b1 + b2 + b3 ->
                 read_validate [b0; b1; b2; b3; b4] = Raise DHT11CRCError)).
  { intros b0 b1 b2 b3 b4 H0 H1 H2 H3.
    rewrite read_validate_five by assumption.
    destruct (Z.eqb_spec b4 (b0 + b1 + b2 + b3)) as [Heq|Hne].
    - split; [|contradiction]. split; [intros _; exact Heq|].
      intros _. eexists. reflexivity.
    - split; [|reflexivity]. split; [intros [r Hr]; discriminate Hr|].
      contradiction. }
  split.
  - intros b0 b1 b2 b3 b4 H0 H1 H2 H3 H4.
    destruct (Hbytes b0 b1 b2 b3 b4 H0 H1 H2 H3) as [Hiff Hne].
    split; [exact Hiff|]. split; [exact Hne|].
    intros Hsum. apply Hne. unfold is_byte in H4. lia.
  - intros data. split.
    + intros [r Hr].
      destruct (Nat.eq_dec (length (parse_data_pull_up_lengths data)) 40)
        as [Hlen|Hlen].
      * destruct (read_forty data Hlen)
          as (b0 & b1 & b2 & b3 & b4 & Heq & (H0 & H1 & H2 & H3 & _) & Hread).
        exists b0, b1, b2, b3, b4. split; [exact Hlen|]. split; [exact Heq|].
        apply (Hbytes b0 b1 b2 b3 b4 H0 H1 H2 H3).
        exists r. rewrite <- Hread. exact Hr.
      * unfold read in Hr. cbv zeta in Hr.
        destruct (Nat.eqb_spec (length (parse_data_pull_up_lengths data)) 40);
          [contradiction|discriminate Hr].
    + intros (b0 & b1 & b2 & b3 & b4 & Hlen & Heq & Hsum).
      destruct (read_forty data Hlen)
        as (c0 & c1 & c2 & c3 & c4 & Heq' & (H0 & H1 & H2 & H3 & _) & Hread).
      rewrite Heq in Heq'. injection Heq' as <- <- <- <- <-.
      rewrite Hread. apply (Hbytes b0 b1 b2 b3 b4 H0 H1 H2 H3). exact Hsum.
Qed.

Lemma C6_checksum_exact_sum_witness :
  is_byte 200 /\ is_byte 100 /\ is_byte 0 /\ is_byte 44
  /\ 256 <= 200 + 100 + 0 + 0
  /\ read_validate [200; 100; 0; 0; 44] = Raise DHT11CRCError.
Proof.
  assert (H200 : is_byte 200) by (unfold is_byte; lia).
  assert (H100 : is_byte 100) by (unfold is_byte; lia).
  assert (H0 : is_byte 0) by (unfold is_byte; lia).
  assert (H44 : is_byte 44) by (unfold is_byte; lia).
  repeat (split; [assumption|]). split; [lia|].
  apply (proj1 C6_checksum_exact_sum 200 100 0 0 44 H200 H100 H0 H0 H44).
  lia.
Defined.

(** ** More on the pulse parser *)

Section ParserMore.

Lemma list_sum_app (xs ys : list Z) :
  list_sum (xs ++ ys) = list_sum xs + list_sum ys.
Proof.
  induction xs as [|x xs IH]; [reflexivity|].
  cbn [app]. unfold list_sum in *. cbn [fold_right]. lia.
Qed.

Lemma list_sum_ge_length (ls : list Z) :
  Forall (fun l => 1 <= l) ls -> Z.of_nat (length ls) <= list_sum ls.
Proof.
  induction 1 as [|l ls Hl _ IH]; [simpl; lia|].
  cbn [length list_sum fold_right]. unfold list_sum in IH. lia.
Qed.

Lemma consumed_step (p : parser) (x : Z) :
  consumed (parse_step p x) <= consumed p + 1.
Proof.
  unfold consumed, parse_step.
  destruct (st p); destruct (x =? _); cbn [st lengths current_length]; try lia.
  rewrite list_sum_app, length_app. cbn [list_sum fold_right length]. lia.
Qed.

Lemma consumed_run (xs : list Z) : forall p,
  consumed (parse_run p xs) <= consumed p + Z.of_nat (length xs).
Proof.
  induction xs as [|x xs IH]; intros p; [simpl; lia|].
  rewrite parse_run_cons. specialize (IH (parse_step p x)).
  pose proof (consumed_step p x). cbn [length]. lia.
Qed.

(** Lengths are only recorded in the data states. *)
Lemma recorded_in_data_state_step (p : parser) (x : Z) :
  (lengths p <> [] -> is_data_state (st p) = true) ->
  lengths (parse_step p x) <> [] -> is_data_state (st (parse_step p x)) = true.
Proof.
  unfold parse_step.
  destruct (st p) eqn:Hst; destruct (x =? _);
    cbn [st lengths]; intros Hp Hne; try reflexivity; rewrite ?Hst;
    try (exact (Hp Hne)).
Qed.

Lemma recorded_in_data_state (xs : list Z) : forall p,
  (lengths p <> [] -> is_data_state (st p) = true) ->
  lengths (parse_run p xs) <> [] -> is_data_state (st (parse_run p xs)) = true.
Proof.
  induction xs as [|x xs IH]; intros p Hp; [exact Hp|].
  rewrite parse_run_cons. apply IH, recorded_in_data_state_step, Hp.
Qed.

(** What is recorded is never taken back. *)
Lemma parse_run_extends (xs : list Z) : forall p,
  exists later, lengths (parse_run p xs) = lengths p ++ later.
Proof.
  induction xs as [|x xs IH]; intros p.
  - exists []. simpl. rewrite app_nil_r. reflexivity.
  - rewrite parse_run_cons. destruct (IH (parse_step p x)) as [later Hl].
    assert (Hstep : exists l1, lengths (parse_step p x) = lengths p ++ l1).
    { unfold parse_step. destruct (st p); destruct (x =? _); cbn [lengths];
        try (exists []; rewrite app_nil_r; reflexivity).
      eexists. reflexivity. }
    destruct Hstep as [l1 Hl1]. exists (l1 ++ later).
    rewrite Hl, Hl1, app_assoc. reflexivity.
Qed.

(** Samples other than the awaited one only advance the counter. *)
Lemma parse_run_stay (n : nat) : forall (s : state) (ls : list Z) (c x : Z),
  x <> awaited s ->
  parse_run (mkParser s ls c) (repeat x n) = mkParser s ls (c + Z.of_nat n).
Proof.
  induction n as [|n IH]; intros s ls c x Hx.
  - simpl. f_equal. lia.
  - cbn [repeat]. rewrite parse_run_cons.
    assert (Hstep : parse_step (mkParser s ls c) x = mkParser s ls (c + 1)).
    { unfold parse_step. cbn [st lengths current_length].
      destruct s; cbn [awaited] in Hx;
        destruct (Z.eqb_spec x 0); destruct (Z.eqb_spec x 1);
        try reflexivity; try contradiction; lia. }
    rewrite Hstep, IH by exact Hx. f_equal. lia.
Qed.

(** The awaited sample followed by any number of copies of it, in the
    three states before the data states. *)
Lemma parse_run_advance (n : nat) (s : state) (c : Z) :
  is_data_state s = false ->
  parse_run (mkParser s [] c) (repeat (awaited s) (S n))
  = mkParser (successor s) [] (c + 1 + Z.of_nat n).
Proof.
  intros Hs. cbn [repeat]. rewrite parse_run_cons.
  destruct s; try discriminate Hs; cbn [awaited successor];
    match goal with
    | |- parse_run (parse_step ?p ?x) _ = mkParser ?s' _ _ =>
        change (parse_step p x) with (mkParser s' [] (c + 1))
    end;
    apply parse_run_stay; cbn [awaited]; lia.
Qed.

Lemma parse_run_preamble (idle resp ack gap : nat) :
  exists c,
    parse_run parser_init
      (repeat 1 idle ++ repeat 0 (S resp) ++ repeat 1 (S ack)
       ++ repeat 0 (S gap))
    = mkParser STATE_DATA_PULL_UP [] c.
Proof.
  unfold parser_init. rewrite !parse_run_app.
  rewrite (parse_run_stay idle STATE_INIT_PULL_DOWN) by (cbn; lia).
  rewrite (parse_run_advance resp STATE_INIT_PULL_DOWN) by reflexivity.
  rewrite (parse_run_advance ack STATE_INIT_PULL_UP) by reflexivity.
  rewrite (parse_run_advance gap STATE_DATA_FIRST_PULL_DOWN) by reflexivity.
  eexists. reflexivity.
Qed.

Lemma parse_run_pulses (gap : nat) (widths : list nat) : forall ls c,
  exists c',
    parse_run (mkParser STATE_DATA_PULL_UP ls c)
              (flat_map (high_pulse gap) widths)
    = mkParser STATE_DATA_PULL_UP
               (ls ++ map (fun w => Z.of_nat (S w)) widths) c'.
Proof.
  induction widths as [|w widths IH]; intros ls c.
  - exists c. simpl. rewrite app_nil_r. reflexivity.
  - cbn [flat_map map]. rewrite parse_run_app. unfold high_pulse at 1.
    rewrite parse_run_pulse.
    destruct (IH (ls ++ [Z.of_nat (S w)]) (Z.of_nat (S w) + Z.of_nat gap))
      as [c' Hc'].
    exists c'. rewrite Hc', <- app_assoc. reflexivity.
Qed.

Lemma parse_run_gapped_pulses (pulses : list (nat * nat)) : forall ls c,
  exists c',
    parse_run (mkParser STATE_DATA_PULL_UP ls c)
              (flat_map gapped_pulse pulses)
    = mkParser STATE_DATA_PULL_UP
               (ls ++ map (fun wg => Z.of_nat (S (fst wg))) pulses) c'.
Proof.
  induction pulses as [|[w g] pulses IH]; intros ls c.
  - exists c. simpl. rewrite app_nil_r. reflexivity.
  - cbn [flat_map map fst]. rewrite parse_run_app.
    unfold gapped_pulse at 1. cbn [fst snd]. rewrite parse_run_pulse.
    destruct (IH (ls ++ [Z.of_nat (S w)]) (Z.of_nat (S w) + Z.of_nat g))
      as [c' Hc'].
    exists c'. rewrite Hc', <- app_assoc. reflexivity.
Qed.

Lemma parse_transmission (idle resp ack gap0 : nat)
    (pulses : list (nat * nat)) :
  parse_data_pull_up_lengths (transmission idle resp ack gap0 pulses)
  = map (fun wg => Z.of_nat (S (fst wg))) pulses.
Proof.
  unfold parse_data_pull_up_lengths, transmission.
  rewrite !app_assoc, parse_run_app, <- !app_assoc.
  destruct (parse_run_preamble idle resp ack gap0) as [c Hc]. rewrite Hc.
  destruct (parse_run_gapped_pulses pulses [] c) as [c' Hc']. rewrite Hc'.
  reflexivity.
Qed.

Lemma parse_signal (idle resp ack gap : nat) (widths : list nat) :
  parse_data_pull_up_lengths (signal idle resp ack gap widths)
  = map (fun w => Z.of_nat (S w)) widths.
Proof.
  unfold parse_data_pull_up_lengths, signal.
  rewrite !app_assoc, parse_run_app, <- !app_assoc.
  destruct (parse_run_preamble idle resp ack gap) as [c Hc]. rewrite Hc.
  destruct (parse_run_pulses gap widths [] c) as [c' Hc']. rewrite Hc'.
  reflexivity.
Qed.

(** A line that never changes takes the parser no further than
    INIT_PULL_UP. *)
Lemma parse_run_constant (v : Z) (n : nat) : forall p,
  lengths p = [] ->
  st p = STATE_INIT_PULL_DOWN \/ (st p = STATE_INIT_PULL_UP /\ v = 0) ->
  lengths (parse_run p (repeat v n)) = [].
Proof.
  induction n as [|n IH]; intros p Hl Hst; [exact Hl|].
  cbn [repeat]. rewrite parse_run_cons. apply IH.
  - unfold parse_step.
    destruct Hst as [Hst|[Hst _]]; rewrite Hst; destruct (v =? _); exact Hl.
  - unfold parse_step. destruct Hst as [Hst|[Hst Hv]]; rewrite Hst.
    + destruct (Z.eqb_spec v 0); cbn [st];
        [right; split; [reflexivity|assumption]|].
      left. reflexivity.
    + subst v. cbn [st Z.eqb]. right. split; reflexivity.
Qed.

End ParserMore.

(** ** Recorded lengths and runs of the line *)

Section Runs.

Lemma recorded_run_snoc (data : list Z) (x l : Z) :
  recorded_run data l -> recorded_run (data ++ [x]) l.
Proof.
  intros (Hl & pre & post & Hd). split; [exact Hl|].
  exists pre, (post ++ [x]). rewrite Hd.
  rewrite <- app_assoc. cbn [app]. rewrite <- app_assoc. reflexivity.
Qed.

Lemma repeat_snoc (x : Z) (n : nat) : repeat x n ++ [x] = repeat x (S n).
Proof. cbn [repeat]. symmetry. apply repeat_cons. Qed.

Lemma parse_run_runs (data : list Z) :
  Forall (fun x => x = 0 \/ x = 1) data ->
  Forall (recorded_run data) (lengths (parse_run parser_init data))
  /\ (st (parse_run parser_init data) = STATE_DATA_PULL_UP ->
      exists pre, data = pre ++ [0])
  /\ (st (parse_run parser_init data) = STATE_DATA_PULL_DOWN ->
      0 <= current_length (parse_run parser_init data)
      /\ exists pre,
           data = pre ++ 0 :: repeat 1
                    (Z.to_nat (current_length (parse_run parser_init data) + 1))).
Proof.
  induction data as [|x data IH] using rev_ind; intros Hbin.
  - cbn. split; [constructor|]. split; discriminate.
  - apply Forall_app in Hbin. destruct Hbin as [Hdata Hx].
    inversion Hx as [|? ? Hx01 _]; subst. clear Hx.
    destruct (IH Hdata) as (Hrec & Hup & Hdown). clear IH.
    rewrite parse_run_snoc.
    set (p := parse_run parser_init data) in *.
    assert (Hrec' : Forall (recorded_run (data ++ [x])) (lengths p)).
    { eapply Forall_impl; [|exact Hrec]. intros l. apply recorded_run_snoc. }
    unfold parse_step. destruct (st p) eqn:Hst;
      destruct Hx01 as [-> | ->]; cbn [Z.eqb Pos.eqb st lengths current_length];
      (split; [try exact Hrec'|split; try discriminate]).
    + intros _. exists data. reflexivity.
    + intros _. exists data. reflexivity.
    + intros _. split; [lia|]. destruct (Hup eq_refl) as [pre Hpre].
      exists pre. rewrite Hpre, <- app_assoc. reflexivity.
    + destruct (Hdown eq_refl) as (Hc & pre & Hpre).
      apply Forall_app. split; [exact Hrec'|]. constructor; [|constructor].
      split; [lia|]. exists pre, []. rewrite Hpre at 1.
      rewrite <- app_assoc. reflexivity.
    + intros _. exists data. reflexivity.
    + intros _. destruct (Hdown eq_refl) as (Hc & pre & Hpre).
      split; [lia|]. exists pre. rewrite Hpre at 1.
      rewrite <- app_assoc. cbn [app]. rewrite repeat_snoc.
      replace (Z.to_nat (current_length p + 1 + 1))
        with (S (Z.to_nat (current_length p + 1))) by lia.
      reflexivity.
Qed.

End Runs.

(** ** Further properties of the pulse parser *)

(** X1: the samples pay for what is recorded.  When the parser returns
    at least one length, the capture has at least three samples before
    the first pulse and, for every recorded length l, l + 1 samples more:
    sum(lengths) + len(lengths) + 3 <= len(data). *)
Theorem X1_parse_accounting (data : list Z) :
  parse_data_pull_up_lengths data <> [] ->
  list_sum (parse_data_pull_up_lengths data)
  + Z.of_nat (length (parse_data_pull_up_lengths data)) + 3
  <= Z.of_nat (length data).
Proof.
  unfold parse_data_pull_up_lengths. intros Hne.
  pose proof (consumed_run data parser_init) as Hc.
  assert (Hd : is_data_state (st (parse_run parser_init data)) = true).
  { apply recorded_in_data_state; [|exact Hne]. intros H. now elim H. }
  pose proof (parse_run_lengths data parser_init) as [Hcnt _];
    [simpl; lia | constructor |].
  unfold consumed in Hc. cbn [parser_init lengths st list_sum fold_right length] in Hc.
  destruct (st (parse_run parser_init data)); try discriminate Hd; lia.
Qed.

Lemma X1_parse_accounting_witness :
  list_sum (parse_data_pull_up_lengths [1; 0; 1; 0; 1; 1; 0; 1; 0])
  + Z.of_nat (length (parse_data_pull_up_lengths [1; 0; 1; 0; 1; 1; 0; 1; 0]))
  + 3
  <= Z.of_nat (length [1; 0; 1; 0; 1; 1; 0; 1; 0]).
Proof.
  apply (X1_parse_accounting [1; 0; 1; 0; 1; 1; 0; 1; 0]). discriminate.
Defined.

(** X2: a capture of fewer than 83 samples cannot hold forty pulses:
    [read] raises DHT11MissingDataError on it. *)
Theorem X2_short_capture_missing (data : list Z) :
  (length data < 83)%nat -> read data = Raise DHT11MissingDataError.
Proof.
  intros Hshort. unfold read. cbv zeta.
  destruct (Nat.eqb_spec (length (parse_data_pull_up_lengths data)) 40)
    as [Hlen|Hlen]; [exfalso|reflexivity].
  assert (Hne : parse_data_pull_up_lengths data <> [])
    by (intros H; rewrite H in Hlen; discriminate Hlen).
  pose proof (consumed_run data parser_init) as Hc.
  assert (Hd : is_data_state (st (parse_run parser_init data)) = true).
  { apply recorded_in_data_state; [|exact Hne]. intros H. now elim H. }
  pose proof (parse_run_lengths data parser_init) as [Hcnt Hpos];
    [simpl; lia | constructor |].
  apply list_sum_ge_length in Hpos.
  unfold parse_data_pull_up_lengths in Hlen. rewrite Hlen in Hpos.
  unfold consumed in Hc.
  cbn [parser_init lengths st list_sum fold_right length] in Hc.
  rewrite Hlen in Hc.
  destruct (st (parse_run parser_init data)); try discriminate Hd; lia.
Qed.

Lemma X2_short_capture_missing_witness :
  read (frame_of_bits (repeat true 19)) = Raise DHT11MissingDataError.
Proof.
  apply (X2_short_capture_missing (frame_of_bits (repeat true 19))).
  vm_compute. lia.
Defined.

(** X3: what the parser has recorded on a capture is kept when the
    capture goes on: the lengths of [data] are a prefix of the lengths of
    [data ++ more]. *)
Theorem X3_parse_prefix (data more : list Z) :
  exists later,
    parse_data_pull_up_lengths (data ++ more)
    = parse_data_pull_up_lengths data ++ later.
Proof.
  unfold parse_data_pull_up_lengths. rewrite parse_run_app.
  apply parse_run_extends.
Qed.

(** X4: on a capture of 0 and 1 samples, every recorded length l is the
    length of a run of l consecutive 1 samples of the capture with a 0
    sample right before it and right after it. *)
Theorem X4_recorded_lengths_are_runs (data : list Z) :
  Forall (fun x => x = 0 \/ x = 1) data ->
  Forall (recorded_run data) (parse_data_pull_up_lengths data).
Proof.
  intros Hbin. apply (parse_run_runs data Hbin).
Qed.

Lemma X4_recorded_lengths_are_runs_witness :
  Forall (recorded_run [1; 0; 1; 0; 1; 1; 0; 1; 0])
         (parse_data_pull_up_lengths [1; 0; 1; 0; 1; 1; 0; 1; 0]).
Proof.
  apply (X4_recorded_lengths_are_runs [1; 0; 1; 0; 1; 1; 0; 1; 0]).
  repeat (constructor; [lia|]). constructor.
Defined.

(** X5: on a well-formed transmission (any number of idle high samples,
    a low response, a high acknowledgement and a first low gap, then high
    pulses each followed by a low gap; every interval at least one
    sample long and of a length of its own) the parser returns exactly
    the lengths of the high pulses, in order. *)
Theorem X5_parse_signal (idle resp ack gap0 : nat)
    (pulses : list (nat * nat)) :
  parse_data_pull_up_lengths (transmission idle resp ack gap0 pulses)
  = map (fun wg => Z.of_nat (S (fst wg))) pulses.
Proof. intros. apply parse_transmission. Qed.

Lemma constant_capture_missing (v : Z) (n : nat) :
  parse_data_pull_up_lengths (repeat v n) = []
  /\ read (repeat v n) = Raise DHT11MissingDataError.
Proof.
  assert (Hnil : parse_data_pull_up_lengths (repeat v n) = []).
  { unfold parse_data_pull_up_lengths. apply parse_run_constant;
      [reflexivity | left; reflexivity]. }
  split; [exact Hnil|]. unfold read. cbv zeta. rewrite Hnil. reflexivity.
Qed.

(** X6: a capture in which every sample has the same value yields no
    pulse length, and [read] raises DHT11MissingDataError on it. *)
Theorem X6_constant_capture_missing (v : Z) (n : nat) :
  parse_data_pull_up_lengths (repeat v n) = []
  /\ read (repeat v n) = Raise DHT11MissingDataError.
Proof. apply constant_capture_missing. Qed.

(** ** The sampling loop *)

Section Collect.

Lemma collect_step_data (c : collector) (x : Z) (late : bool) :
  data (fst (collect_step c x late)) = data c ++ [x].
Proof.
  unfold collect_step. destruct (negb _); [reflexivity|].
  destruct (_ >? _); reflexivity.
Qed.

Lemma collect_step_late (c : collector) (x : Z) :
  snd (collect_step c x true) = true.
Proof.
  unfold collect_step. destruct (negb _); [reflexivity|].
  destruct (_ >? _); reflexivity.
Qed.

Lemma collect_loop_cons (c : collector) (x : Z) (late : bool)
    (rest : list (Z * bool)) :
  collect_loop ((x, late) :: rest) c
  = if snd (collect_step c x late)
    then Some (data c ++ [x])
    else collect_loop rest (fst (collect_step c x late)).
Proof.
  cbn [collect_loop]. rewrite <- collect_step_data with (late := late).
  destruct (collect_step c x late) as [c' stop]. reflexivity.
Qed.

(** What is returned is what was there plus the samples of the passes
    made, and at least one pass is made. *)
Lemma collect_loop_prefix (line : list (Z * bool)) : forall c d,
  collect_loop line c = Some d ->
  exists n, (n < length line)%nat
            /\ d = data c ++ map fst (firstn (S n) line).
Proof.
  induction line as [|[x late] rest IH]; intros c d Hd; [discriminate Hd|].
  rewrite collect_loop_cons in Hd.
  destruct (snd (collect_step c x late)).
  - injection Hd as <-. exists 0%nat. split; [cbn; lia|reflexivity].
  - destruct (IH _ _ Hd) as (n & Hn & Heq). exists (S n).
    split; [cbn [length]; lia|].
    rewrite Heq, collect_step_data, <- app_assoc. reflexivity.
Qed.

(** A pass whose time test succeeds ends the loop at the latest. *)
Lemma collect_loop_timeout (n : nat) : forall line c x,
  nth_error line n = Some (x, true) ->
  exists d, collect_loop line c = Some d
            /\ (length d <= length (data c) + S n)%nat.
Proof.
  induction n as [|n IH]; intros line c x Hn;
    destruct line as [|[y late] rest]; try discriminate Hn.
  - injection Hn as -> ->. rewrite collect_loop_cons, collect_step_late.
    eexists. split; [reflexivity|]. rewrite length_app. cbn. lia.
  - cbn [nth_error] in Hn. rewrite collect_loop_cons.
    destruct (snd (collect_step c y late)).
    + eexists. split; [reflexivity|]. rewrite length_app. cbn. lia.
    + destruct (IH rest (fst (collect_step c y late)) x Hn) as (d & Hd & Hlen).
      exists d. split; [exact Hd|].
      rewrite collect_step_data, length_app in Hlen. cbn in Hlen. lia.
Qed.

(** Passes on an unchanged level, below the limit of unchanged passes. *)
Lemma collect_loop_unchanged (n : nat) : forall (v uc : Z) (d : list Z) tail,
  uc + Z.of_nat n <= 100 ->
  collect_loop (repeat (v, false) n ++ tail) (mkCollector uc v d)
  = collect_loop tail (mkCollector (uc + Z.of_nat n) v (d ++ repeat v n)).
Proof.
  induction n as [|n IH]; intros v uc d tail Huc.
  - cbn [repeat app]. rewrite app_nil_r. do 2 f_equal. lia.
  - cbn [repeat app]. rewrite collect_loop_cons.
    unfold collect_step. cbn [last unchanged_count data].
    rewrite Z.eqb_refl. cbn [negb]. unfold max_unchanged_count.
    destruct (Z.gtb_spec (uc + 1) 100) as [Hgt|Hle]; [lia|].
    cbn [fst snd]. rewrite IH by lia. do 2 f_equal; [lia|].
    rewrite <- app_assoc. reflexivity.
Qed.

(** ** Runs in the collected samples *)

Lemma run_from_same (n : nat) : forall v c m,
  c <= m ->
  run_from (v, c, m) (repeat v n)
  = (v, c + Z.of_nat n, Z.max m (c + Z.of_nat n)).
Proof.
  induction n as [|n IH]; intros v c m Hc.
  - cbn. do 2 f_equal; lia.
  - cbn [repeat]. unfold run_from. cbn [fold_left]. fold (run_from).
    unfold run_step at 2. rewrite Z.eqb_refl.
    change (fold_left run_step (repeat v n) (v, c + 1, Z.max m (c + 1)))
      with (run_from (v, c + 1, Z.max m (c + 1)) (repeat v n)).
    rewrite IH by lia. f_equal; [f_equal|]; lia.
Qed.

Lemma run_step_bounds (p c m x : Z) :
  0 <= c ->
  let '(_, c', m') := run_step (p, c, m) x in 1 <= c' /\ c' <= m' /\ m <= m'.
Proof.
  intros Hc. unfold run_step. destruct (x =? p); lia.
Qed.

Lemma run_from_bounds (xs : list Z) : forall p c m,
  0 <= c ->
  let '(_, c', m') := run_from (p, c, m) xs in 0 <= c' /\ m <= m'.
Proof.
  induction xs as [|x xs IH]; intros p c m Hc; [cbn; lia|].
  unfold run_from. cbn [fold_left].
  pose proof (run_step_bounds p c m x Hc) as Hs.
  destruct (run_step (p, c, m) x) as [[p1 c1] m1].
  specialize (IH p1 c1 m1). unfold run_from in IH.
  destruct (fold_left run_step xs (p1, c1, m1)) as [[p2 c2] m2].
  destruct Hs as (H1 & H2 & H3). destruct IH as [H4 H5]; lia.
Qed.

(** A run of [n] equal samples anywhere in a list is seen by the scan. *)
Lemma longest_run_ge (pre post : list Z) (v : Z) (n : nat) :
  Z.of_nat n <= longest_run (pre ++ repeat v n ++ post).
Proof.
  unfold longest_run, run_scan. rewrite !fold_left_app.
  pose proof (run_from_bounds pre (-1) 0 0 ltac:(lia)) as Hpre.
  unfold run_from in Hpre.
  destruct (fold_left run_step pre (-1, 0, 0)) as [[p c] m].
  destruct Hpre as [Hc Hm].
  destruct n as [|n].
  - cbn [repeat fold_left].
    pose proof (run_from_bounds post p c m Hc) as Hpost. unfold run_from in Hpost.
    destruct (fold_left run_step post (p, c, m)) as [[p' c'] m']. cbn [snd]. lia.
  - cbn [repeat fold_left].
    pose proof (run_step_bounds p c m v Hc) as Hs.
    assert (Hprev : fst (fst (run_step (p, c, m) v)) = v)
      by (unfold run_step; reflexivity).
    destruct (run_step (p, c, m) v) as [[p1 c1] m1]. cbn [fst] in Hprev. subst p1.
    destruct Hs as (H1 & H2 & H3).
    pose proof (run_from_same n v c1 m1 H2) as Hsame. unfold run_from in Hsame.
    rewrite Hsame.
    pose proof (run_from_bounds post v (c1 + Z.of_nat n)
                  (Z.max m1 (c1 + Z.of_nat n)) ltac:(lia)) as Hpost.
    unfold run_from in Hpost.
    destruct (fold_left run_step post _) as [[p' c'] m']. cbn [snd]. lia.
Qed.

Lemma collect_step_inv (c : collector) (x : Z) (late : bool) :
  collect_inv c ->
  longest_run (data c ++ [x]) <= 102
  /\ (snd (collect_step c x late) = false ->
      collect_inv (fst (collect_step c x late))).
Proof.
  unfold collect_inv, longest_run, run_scan.
  rewrite fold_left_app. cbn [fold_left].
  intros Hinv.
  assert (Hdata := collect_step_data c x late).
  unfold run_scan. rewrite Hdata, fold_left_app. cbn [fold_left].
  destruct (fold_left run_step (data c) (-1, 0, 0)) as [[prev cur] longest].
  destruct Hinv as (Hprev & Hcur & Huc & Hlong). subst prev.
  unfold run_step, collect_step, max_unchanged_count.
  rewrite (Z.eqb_sym x (last c)).
  destruct (Z.eqb_spec (last c) x) as [Heq|Hne]; cbn [negb snd fst].
  - destruct (Z.gtb_spec (unchanged_count c + 1) 100) as [Hgt|Hle];
      cbn [snd fst last unchanged_count].
    + split; [lia|discriminate].
    + split; [lia|]. intros _. repeat split; lia.
  - cbn [last unchanged_count]. split; [lia|]. intros _.
    repeat split; lia.
Qed.

Lemma collect_loop_runs (line : list (Z * bool)) : forall c d,
  collect_inv c -> collect_loop line c = Some d -> longest_run d <= 102.
Proof.
  induction line as [|[x late] rest IH]; intros c d Hinv Hd; [discriminate Hd|].
  rewrite collect_loop_cons in Hd.
  destruct (collect_step_inv c x late Hinv) as [Hrun Hnext].
  destruct (snd (collect_step c x late)).
  - injection Hd as <-. exact Hrun.
  - apply (IH _ _ (Hnext eq_refl) Hd).
Qed.

End Collect.

(** ** Properties of the sampling loop *)

(** X7: when the sampling loop ends, the list it returns is not empty
    and is an initial part of the levels the line showed, in order. *)
Theorem X7_collect_prefix (line : list (Z * bool)) (d : list Z) :
  collect_input line = Some d ->
  d <> [] /\ exists rest, map fst line = d ++ rest.
Proof.
  intros Hd. destruct (collect_loop_prefix line _ _ Hd) as (n & Hn & Heq).
  cbn [collector_init data app] in Heq. subst d. split.
  - destruct line as [|t rest]; [cbn in Hn; lia|]. discriminate.
  - exists (map fst (skipn (S n) line)).
    rewrite <- map_app, firstn_skipn. reflexivity.
Qed.

Lemma X7_collect_prefix_witness :
  collect_input [(1, false); (0, false); (0, true); (1, false)] = Some [1; 0; 0]
  /\ exists rest,
       map fst [(1, false); (0, false); (0, true); (1, false)]
       = [1; 0; 0] ++ rest.
Proof.
  split; [reflexivity|].
  apply (X7_collect_prefix
           [(1, false); (0, false); (0, true); (1, false)] [1; 0; 0]).
  reflexivity.
Defined.

(** X8: the time limit bounds the loop.  If the time test succeeds in
    pass number n (counting from 0), the loop ends and returns at most
    n + 1 samples. *)
Theorem X8_collect_timeout (line : list (Z * bool)) (n : nat) (x : Z) :
  nth_error line n = Some (x, true) ->
  exists d, collect_input line = Some d /\ (length d <= S n)%nat.
Proof.
  intros Hn. destruct (collect_loop_timeout n line collector_init x Hn)
    as (d & Hd & Hlen).
  exists d. split; [exact Hd|exact Hlen].
Qed.

Lemma X8_collect_timeout_witness :
  exists d,
    collect_input [(1, false); (0, false); (0, true); (1, false)] = Some d
    /\ (length d <= 3)%nat.
Proof.
  apply (X8_collect_timeout
           [(1, false); (0, false); (0, true); (1, false)] 2 0).
  reflexivity.
Defined.

(** X9: the list the sampling loop returns has no run of more than 102
    equal consecutive samples. *)
Theorem X9_collect_run_bound (line : list (Z * bool)) (d pre post : list Z)
    (v : Z) (n : nat) :
  collect_input line = Some d ->
  d = pre ++ repeat v n ++ post ->
  (n <= 102)%nat.
Proof.
  intros Hd Hrun.
  assert (Hlong : longest_run d <= 102).
  { apply (collect_loop_runs line collector_init d); [|exact Hd].
    cbn. lia. }
  pose proof (longest_run_ge pre post v n) as Hge.
  rewrite <- Hrun in Hge. lia.
Qed.

Lemma X9_collect_run_bound_witness :
  collect_input [(1, false); (0, false); (0, true); (1, false)] = Some [1; 0; 0]
  /\ (2 <= 102)%nat.
Proof.
  split; [reflexivity|].
  apply (X9_collect_run_bound
           [(1, false); (0, false); (0, true); (1, false)]
           [1; 0; 0] [1] [] 0 2); reflexivity.
Defined.

(** X10: on a line that stays at one level v (other than -1) the loop
    stops by itself: if the time test fails in the first 101 passes, the
    loop ends in pass 102 and returns 102 samples v. *)
Theorem X10_collect_stuck_line (v : Z) (late : bool)
    (rest : list (Z * bool)) :
  v <> -1 ->
  collect_input (repeat (v, false) 101 ++ (v, late) :: rest)
  = Some (repeat v 102).
Proof.
  intros Hv. unfold collect_input.
  change (repeat (v, false) 101) with ((v, false) :: repeat (v, false) 100).
  cbn [app]. rewrite collect_loop_cons.
  assert (Hfirst : collect_step collector_init v false
                   = (mkCollector 0 v [v], false)).
  { unfold collect_step, collector_init. cbn [last data unchanged_count app].
    destruct (Z.eqb_spec (-1) v); [congruence|reflexivity]. }
  rewrite Hfirst. cbn [fst snd].
  rewrite collect_loop_unchanged by lia. rewrite collect_loop_cons.
  unfold collect_step. cbn [last unchanged_count data].
  rewrite Z.eqb_refl. cbn. reflexivity.
Qed.

Lemma X10_collect_stuck_line_witness :
  collect_input (repeat (1, false) 101 ++ (1, true) :: [])
  = Some (repeat 1 102).
Proof. apply (X10_collect_stuck_line 1 true []). discriminate. Defined.

(** ** More on the bit decoder *)

Section DecoderMore.

(** The comparison with [halfway], in integers. *)
Lemma Qgtb_midpoint (x a b : Z) :
  Qgtb (inject_Z x) (inject_Z a + inject_Z (b - a) / 2) = (a + b <? 2 * x).
Proof.
  destruct (Z.ltb_spec (a + b) (2 * x)) as [Hlt|Hge].
  - apply Qgtb_lt. unfold Qlt, Qplus, Qdiv, Qmult, Qinv, inject_Z.
    cbn [Qnum Qden]. lia.
  - unfold Qgtb. apply negb_false_iff, Qle_bool_iff.
    unfold Qle, Qplus, Qdiv, Qmult, Qinv, inject_Z. cbn [Qnum Qden]. lia.
Qed.

Lemma scan_folds (ls : list Z) :
  shortest_pull_up ls = fold_left Z.min ls 1000
  /\ longest_pull_up ls = fold_left Z.max ls 0.
Proof.
  unfold shortest_pull_up, longest_pull_up, scan.
  rewrite fold_scan_min_max. split; reflexivity.
Qed.

Lemma calculate_bits_threshold (ls : list Z) :
  calculate_bits ls
  = map (fun l => shortest_pull_up ls + longest_pull_up ls <? 2 * l) ls.
Proof.
  unfold calculate_bits. cbv zeta. apply map_ext. intros l.
  unfold halfway. cbv zeta. rewrite Qgtb_midpoint.
  destruct (_ <? _); reflexivity.
Qed.

Lemma fold_min_glb (ls : list Z) (m : Z) : forall a,
  (forall x, In x ls -> m <= x) -> m <= a -> m <= fold_left Z.min ls a.
Proof.
  induction ls as [|y ls IH]; intros a Hall Ha; [exact Ha|].
  cbn [fold_left]. apply IH.
  - intros x Hx. apply Hall. right. exact Hx.
  - specialize (Hall y (or_introl eq_refl)). lia.
Qed.

Lemma fold_max_lub (ls : list Z) (m : Z) : forall a,
  (forall x, In x ls -> x <= m) -> a <= m -> fold_left Z.max ls a <= m.
Proof.
  induction ls as [|y ls IH]; intros a Hall Ha; [exact Ha|].
  cbn [fold_left]. apply IH.
  - intros x Hx. apply Hall. right. exact Hx.
  - specialize (Hall y (or_introl eq_refl)). lia.
Qed.

Lemma fold_max_ge_in (ls : list Z) (l : Z) : forall a,
  In l ls -> l <= fold_left Z.max ls a.
Proof.
  induction ls as [|x ls IH]; intros a Hin; [destruct Hin|].
  cbn [fold_left]. destruct Hin as [Hx|Hin].
  - subst x. pose proof (fold_max_ge ls (Z.max a l)). lia.
  - apply IH, Hin.
Qed.

(** With every length between 0 and 1000 the sentinels do not show. *)
Lemma scan_in_range (x : Z) (xs : list Z) :
  Forall (fun l => 0 <= l <= 1000) (x :: xs) ->
  shortest_pull_up (x :: xs) = fold_left Z.min xs x
  /\ longest_pull_up (x :: xs) = fold_left Z.max xs x.
Proof.
  intros Hall. inversion Hall as [|? ? Hx _]; subst.
  rewrite shortest_pull_up_cons, longest_pull_up_cons.
  pose proof (fold_min_le xs x). pose proof (fold_max_ge xs x). lia.
Qed.

End DecoderMore.

Lemma decode_two_levels (s l : Z) (bits : list bool) :
  0 <= s < l -> s <= 1000 -> In false bits ->
  calculate_bits (map (fun b : bool => if b then l else s) bits) = bits.
Proof.
  intros Hsl Hs Hfalse.
  set (f := fun b : bool => if b then l else s).
  assert (Hin_s : In s (map f bits)) by (apply (in_map f _ _ Hfalse)).
  assert (Hrange : forall x, In x (map f bits) -> s <= x <= l).
  { intros x Hx. apply in_map_iff in Hx. destruct Hx as ([|] & <- & _);
      unfold f; lia. }
  destruct (scan_folds (map f bits)) as [Hshort Hlong].
  assert (Hlo : shortest_pull_up (map f bits) = s).
  { rewrite Hshort.
    pose proof (fold_min_le_in (map f bits) s 1000 Hin_s).
    pose proof (fold_min_glb (map f bits) s 1000
                  (fun x Hx => proj1 (Hrange x Hx)) Hs). lia. }
  assert (Hhi : s <= longest_pull_up (map f bits) <= l).
  { rewrite Hlong. split.
    - apply fold_max_ge_in, Hin_s.
    - apply fold_max_lub; [|lia]. intros x Hx. apply (Hrange x Hx). }
  rewrite calculate_bits_threshold, Hlo, map_map.
  rewrite <- (map_id bits) at 2. apply map_ext_in. intros b Hb.
  destruct b; unfold f at 2.
  - assert (l <= longest_pull_up (map f bits)).
    { rewrite Hlong. apply fold_max_ge_in. apply (in_map f _ _ Hb). }
    apply Z.ltb_lt. lia.
  - apply Z.ltb_ge. lia.
Qed.

(** X11: pulses of two widths decode to the bits they stand for.  When
    0 bits have length s and 1 bits have length l, with
    0 <= s < l <= 2^52 and s <= 1000, and at least one bit is 0, the
    decoder returns the bits. *)
Theorem X11_decode_two_levels (s l : Z) (bits : list bool) :
  0 <= s < l -> l <= exact_double_bound -> s <= 1000 -> In false bits ->
  calculate_bits (map (fun b : bool => if b then l else s) bits) = bits.
Proof. intros Hsl _ Hs Hfalse. apply decode_two_levels; assumption. Qed.

Lemma X11_decode_two_levels_witness :
  calculate_bits (map (fun b : bool => if b then 70 else 10)
                      [false; true; true; false])
  = [false; true; true; false].
Proof.
  apply (X11_decode_two_levels 10 70 [false; true; true; false]);
    [lia | unfold exact_double_bound; lia | lia | left; reflexivity].
Defined.

Lemma decode_equal_lengths (v : Z) (n : nat) :
  v <= 1000 -> calculate_bits (repeat v n) = repeat false n.
Proof.
  intros Hv. destruct n as [|n]; [reflexivity|].
  rewrite calculate_bits_threshold, map_repeat. f_equal. apply Z.ltb_ge.
  destruct (scan_folds (repeat v (S n))) as [Hshort Hlong].
  rewrite Hshort, Hlong.
  assert (Hin : In v (repeat v (S n))) by (left; reflexivity).
  assert (Hall : forall x, In x (repeat v (S n)) -> x = v)
    by (intros x Hx; apply (repeat_spec _ _ _ Hx)).
  pose proof (fold_max_ge_in _ v 0 Hin).
  pose proof (fold_min_glb (repeat v (S n)) v 1000
                (fun x Hx => Z.eq_le_incl _ _ (eq_sym (Hall x Hx)))
                ltac:(lia)).
  lia.
Qed.

(** X12: pulses that all have the same length v, 0 <= v <= 1000, decode
    to 0 bits only; a transmission of 1 bits alone is therefore decoded
    as 0 bits. *)
Theorem X12_decode_equal_lengths (v : Z) (n : nat) :
  0 <= v <= 1000 -> calculate_bits (repeat v n) = repeat false n.
Proof. intros Hv. apply decode_equal_lengths. lia. Qed.

Lemma X12_decode_equal_lengths_witness :
  calculate_bits (repeat 3 40) = repeat false 40.
Proof. apply (X12_decode_equal_lengths 3 40). lia. Defined.

(** ** More on the byte packer *)

Section PackerMore.

(** The output built so far is only extended. *)
Lemma loop_acc (bits : list bool) : forall i byte_d bytes,
  bits_to_bytes_loop bits i byte_d bytes
  = bytes ++ bits_to_bytes_loop bits i byte_d [].
Proof.
  induction bits as [|bit bits IH]; intros i byte_d bytes.
  - cbn. rewrite app_nil_r. reflexivity.
  - cbn [bits_to_bytes_loop]. cbv zeta. destruct (_ =? 0).
    + rewrite IH, (IH _ _ ([] ++ _)), app_assoc. reflexivity.
    + apply IH.
Qed.

(** Only the index modulo 8 matters. *)
Lemma loop_shift (bits : list bool) : forall i j byte_d bytes,
  i mod 8 = j mod 8 ->
  bits_to_bytes_loop bits i byte_d bytes
  = bits_to_bytes_loop bits j byte_d bytes.
Proof.
  induction bits as [|bit bits IH]; intros i j byte_d bytes Hij; [reflexivity|].
  assert (Hnext : (i + 1) mod 8 = (j + 1) mod 8)
    by (rewrite (Z.add_mod i), (Z.add_mod j), Hij by lia; reflexivity).
  cbn [bits_to_bytes_loop]. cbv zeta. rewrite Hnext.
  destruct (_ =? 0); apply IH, Hnext.
Qed.

Lemma bits_to_bytes_octet (b0 b1 b2 b3 b4 b5 b6 b7 : bool)
    (rest : list bool) :
  bits_to_bytes (b0 :: b1 :: b2 :: b3 :: b4 :: b5 :: b6 :: b7 :: rest)
  = (128 * Z.b2z b0 + 64 * Z.b2z b1 + 32 * Z.b2z b2 + 16 * Z.b2z b3
     + 8 * Z.b2z b4 + 4 * Z.b2z b5 + 2 * Z.b2z b6 + Z.b2z b7)
    :: bits_to_bytes rest.
Proof.
  unfold bits_to_bytes. change 0 with (8 * 0) at 1.
  rewrite loop_octet, loop_acc. cbn [app]. f_equal.
  apply loop_shift. reflexivity.
Qed.

(** The eight bits of a byte, most significant first, add up to it. *)
Lemma byte_of_its_bits (b : Z) :
  is_byte b ->
  128 * Z.b2z (Z.testbit b 7) + 64 * Z.b2z (Z.testbit b 6)
  + 32 * Z.b2z (Z.testbit b 5) + 16 * Z.b2z (Z.testbit b 4)
  + 8 * Z.b2z (Z.testbit b 3) + 4 * Z.b2z (Z.testbit b 2)
  + 2 * Z.b2z (Z.testbit b 1) + Z.b2z (Z.testbit b 0) = b.
Proof.
  unfold is_byte. intros Hb.
  rewrite !Z.testbit_spec' by lia.
  change (2 ^ 7) with 128. change (2 ^ 6) with 64. change (2 ^ 5) with 32.
  change (2 ^ 4) with 16. change (2 ^ 3) with 8. change (2 ^ 2) with 4.
  change (2 ^ 1) with 2. change (2 ^ 0) with 1.
  Z.div_mod_to_equations. lia.
Qed.


End PackerMore.

(** X13: the byte packer works group by group.  When the first list has
    a multiple of eight bits, packing a concatenation gives the
    concatenation of the packings. *)
Theorem X13_pack_append (n : nat) : forall a b : list bool,
  length a = (8 * n)%nat ->
  bits_to_bytes (a ++ b) = bits_to_bytes a ++ bits_to_bytes b.
Proof.
  induction n as [|n IH]; intros a b Hlen.
  - destruct a; [reflexivity|discriminate Hlen].
  - do 8 (destruct a as [|? a]; [cbn in Hlen; lia|]).
    cbn [app]. rewrite !bits_to_bytes_octet, (IH a b); [reflexivity|].
    cbn [length] in Hlen. lia.
Qed.

Lemma X13_pack_append_witness :
  bits_to_bytes (bits_of_bytes [60] ++ bits_of_bytes [25])
  = bits_to_bytes (bits_of_bytes [60]) ++ bits_to_bytes (bits_of_bytes [25]).
Proof.
  apply (X13_pack_append 1 (bits_of_bytes [60]) (bits_of_bytes [25])).
  reflexivity.
Defined.


Lemma pack_round_trip (bs : list Z) :
  Forall is_byte bs -> bits_to_bytes (bits_of_bytes bs) = bs.
Proof.
  induction 1 as [|b bs Hb _ IH]; [reflexivity|].
  change (bits_of_bytes (b :: bs))
    with ([Z.testbit b 7; Z.testbit b 6; Z.testbit b 5; Z.testbit b 4;
           Z.testbit b 3; Z.testbit b 2; Z.testbit b 1; Z.testbit b 0]
          ++ bits_of_bytes bs).
  cbn [app]. rewrite bits_to_bytes_octet, IH. f_equal.
  apply (byte_of_its_bits b Hb).
Qed.

(** X15: packing undoes the MSB-first expansion: for bytes in 0..255,
    packing the list of their bits, eight per byte and most significant
    first, returns the bytes. *)
Theorem X15_pack_round_trip (bs : list Z) :
  Forall is_byte bs -> bits_to_bytes (bits_of_bytes bs) = bs.
Proof. apply pack_round_trip. Qed.

Lemma X15_pack_round_trip_witness :
  bits_to_bytes (bits_of_bytes [200; 100; 0; 0; 44]) = [200; 100; 0; 0; 44].
Proof.
  apply (X15_pack_round_trip [200; 100; 0; 0; 44]).
  repeat (constructor; [unfold is_byte; lia|]). constructor.
Defined.

(** ** Exactness of the double arithmetic in range *)

Section Exactness.

(** With pulse lengths between 0 and 2^52, every value line 153 forms is
    a binary64 number: the double computation does not round, and
    [halfway] is its result. *)
Lemma halfway_exact (ls : list Z) :
  Forall (fun l => 0 <= l <= exact_double_bound) ls ->
  binary64 (inject_Z (shortest_pull_up ls))
  /\ binary64 (inject_Z (longest_pull_up ls - shortest_pull_up ls))
  /\ binary64 (inject_Z (longest_pull_up ls - shortest_pull_up ls) / 2)
  /\ binary64 (halfway ls).
Proof.
  intros Hall. rewrite Forall_forall in Hall. unfold exact_double_bound in Hall.
  destruct (scan_folds ls) as [Hs Hl].
  assert (Hshort : 0 <= shortest_pull_up ls <= 1000).
  { rewrite Hs. split.
    - apply fold_min_glb; [|lia]. intros x Hx. apply (Hall x Hx).
    - apply fold_min_le. }
  assert (Hlong : 0 <= longest_pull_up ls <= 2 ^ 52).
  { rewrite Hl. split.
    - apply fold_max_ge.
    - apply fold_max_lub; [|lia]. intros x Hx. apply (Hall x Hx). }
  unfold halfway. cbv zeta.
  set (sh := shortest_pull_up ls) in *. set (lo := longest_pull_up ls) in *.
  clearbody sh lo. repeat split.
  - exists sh, 0. split; [lia|]. split; [lia|].
    unfold Qeq, Qmult, inject_Z. cbn -[Z.mul Z.add]. lia.
  - exists (lo - sh), 0. split; [lia|]. split; [lia|].
    unfold Qeq, Qmult, inject_Z. cbn -[Z.mul Z.add Z.sub]. lia.
  - exists (lo - sh), (-1). split; [lia|]. split; [lia|].
    unfold Qeq, Qdiv, Qmult, Qinv, inject_Z. cbn -[Z.mul Z.add Z.sub]. lia.
  - exists (sh + lo), (-1). split; [lia|]. split; [lia|].
    unfold Qeq, Qplus, Qdiv, Qmult, Qinv, inject_Z.
    cbn -[Z.mul Z.add Z.sub]. lia.
Qed.

(** With a decimal byte that is a multiple of 5, the quotient and the sum
    of lines 73-74 are binary64 numbers: the doubles the source returns
    are the rationals of [read_validate]. *)
Lemma tenths_exact (whole tenths : Z) :
  is_byte whole -> is_byte tenths -> tenths mod 5 = 0 ->
  binary64 (inject_Z tenths / 10)
  /\ binary64 (inject_Z whole + inject_Z tenths / 10).
Proof.
  unfold is_byte. intros Hw Ht Hm.
  assert (Hk : tenths = 5 * (tenths / 5))
    by (apply Z.div_exact; [lia|exact Hm]).
  clear Hm. set (k := tenths / 5) in *. clearbody k. subst tenths.
  split.
  - exists k, (-1). split; [lia|]. split; [lia|].
    unfold Qeq, Qplus, Qdiv, Qmult, Qinv, inject_Z. cbn -[Z.mul Z.add]. lia.
  - exists (2 * whole + k), (-1). split; [lia|]. split; [lia|].
    unfold Qeq, Qplus, Qdiv, Qmult, Qinv, inject_Z. cbn -[Z.mul Z.add]. lia.
Qed.

End Exactness.

(** ** From the line to the reading *)

Section EndToEnd.

Lemma byte_has_zero_bit (b : Z) :
  is_byte b -> b <> 255 -> In false (bits_of_byte_from 8 b).
Proof.
  intros Hb Hne. pose proof (byte_of_its_bits b Hb) as Hsum.
  change (bits_of_byte_from 8 b)
    with [Z.testbit b 7; Z.testbit b 6; Z.testbit b 5; Z.testbit b 4;
          Z.testbit b 3; Z.testbit b 2; Z.testbit b 1; Z.testbit b 0].
  destruct (Z.testbit b 7); [|cbn; tauto].
  destruct (Z.testbit b 6); [|cbn; tauto].
  destruct (Z.testbit b 5); [|cbn; tauto].
  destruct (Z.testbit b 4); [|cbn; tauto].
  destruct (Z.testbit b 3); [|cbn; tauto].
  destruct (Z.testbit b 2); [|cbn; tauto].
  destruct (Z.testbit b 1); [|cbn; tauto].
  destruct (Z.testbit b 0); [|cbn; tauto].
  cbn [Z.b2z] in Hsum. lia.
Qed.

(** Five bytes with a matching one-byte checksum have a 0 bit. *)
Lemma frame_has_zero_bit (b0 b1 b2 b3 : Z) :
  is_byte b0 -> is_byte b1 -> is_byte b2 -> is_byte b3 ->
  b0 + b1 + b2 + b3 <= 255 ->
  In false (bits_of_bytes [b0; b1; b2; b3; b0 + b1 + b2 + b3]).
Proof.
  intros H0 H1 H2 H3 Hsum.
  change (bits_of_bytes [b0; b1; b2; b3; b0 + b1 + b2 + b3])
    with (bits_of_byte_from 8 b0
          ++ bits_of_byte_from 8 b1
          ++ bits_of_bytes [b2; b3; b0 + b1 + b2 + b3]).
  destruct (Z.eq_dec b0 255) as [Heq|Hne].
  - apply in_or_app. right. apply in_or_app. left.
    apply byte_has_zero_bit; [exact H1|]. unfold is_byte in *. lia.
  - apply in_or_app. left. apply byte_has_zero_bit; assumption.
Qed.

Lemma widths_as_lengths (short long : nat) (bits : list bool) :
  map (fun w => Z.of_nat (S w)) (widths_of_bits short long bits)
  = map (fun b : bool => if b then Z.of_nat (S long) else Z.of_nat (S short))
        bits.
Proof.
  unfold widths_of_bits. rewrite map_map. apply map_ext.
  intros [|]; reflexivity.
Qed.

Lemma firstn_constant (v : Z) (line : list (Z * bool)) (n : nat) :
  Forall (fun t => fst t = v) line ->
  map fst (firstn n line) = repeat v (length (firstn n line)).
Proof.
  intros Hall. revert n. induction Hall as [|t line Ht _ IH]; intros n.
  - destruct n; reflexivity.
  - destruct n; [reflexivity|]. cbn [firstn map length repeat].
    rewrite Ht, IH. reflexivity.
Qed.

Lemma recorded_run_bound (d : list Z) (l : Z) :
  longest_run d <= 102 -> recorded_run d l -> 1 <= l <= 102.
Proof.
  intros Hlong (Hl & pre & post & Hd). split; [exact Hl|].
  pose proof (longest_run_ge (pre ++ [0]) (0 :: post) 1 (Z.to_nat l)) as Hge.
  rewrite <- app_assoc in Hge. cbn [app] in Hge. rewrite <- Hd in Hge. lia.
Qed.

End EndToEnd.

(** X16: a reading is only returned for bytes whose checksum matches
    without wrap-around.  When [read] returns a reading with checksum c,
    the capture decodes to five bytes b0, b1, b2, b3, c in 0..255 with
    c = b0 + b1 + b2 + b3 (so the sum is at most 255).  When the decimal
    byte b3 is a multiple of 5 the temperature is exactly b2 + b3/10,
    and when b1 is a multiple of 5 the humidity is exactly b0 + b1/10. *)
Theorem X16_reading_sound (data : list Z) (t h : Q) (c : Z) :
  read data = Return (t, h, c) ->
  exists b0 b1 b2 b3 : Z,
    bits_to_bytes (calculate_bits (parse_data_pull_up_lengths data))
    = [b0; b1; b2; b3; c]
    /\ is_byte b0 /\ is_byte b1 /\ is_byte b2 /\ is_byte b3
    /\ c = b0 + b1 + b2 + b3 /\ c <= 255
    /\ (b3 mod 5 = 0 -> t = (inject_Z b2 + inject_Z b3 / 10)%Q)
    /\ (b1 mod 5 = 0 -> h = (inject_Z b0 + inject_Z b1 / 10)%Q).
Proof.
  intros Hread.
  destruct (Nat.eq_dec (length (parse_data_pull_up_lengths data)) 40)
    as [Hlen|Hlen].
  - destruct (read_forty data Hlen)
      as (b0 & b1 & b2 & b3 & b4 & Heq & (H0 & H1 & H2 & H3 & H4) & Hval).
    rewrite Hval, read_validate_five in Hread by assumption.
    destruct (Z.eqb_spec b4 (b0 + b1 + b2 + b3)) as [Hsum|Hsum];
      [|discriminate Hread].
    injection Hread as <- <- <-. exists b0, b1, b2, b3.
    rewrite Heq, Hsum. unfold is_byte in H4.
    repeat (split; [first [reflexivity | assumption | lia]|]).
    split; intros _; reflexivity.
  - unfold read in Hread. cbv zeta in Hread.
    destruct (Nat.eqb_spec (length (parse_data_pull_up_lengths data)) 40);
      [contradiction|discriminate Hread].
Qed.

Lemma X16_reading_sound_witness :
  exists b0 b1 b2 b3 : Z,
    bits_to_bytes
      (calculate_bits
         (parse_data_pull_up_lengths
            (frame_of_bits (bits_of_bytes [60; 0; 25; 0; 85]))))
    = [b0; b1; b2; b3; 85]
    /\ is_byte b0 /\ is_byte b1 /\ is_byte b2 /\ is_byte b3
    /\ 85 = b0 + b1 + b2 + b3.
Proof.
  destruct (X16_reading_sound
              (frame_of_bits (bits_of_bytes [60; 0; 25; 0; 85]))
              (inject_Z 25 + inject_Z 0 / 10)%Q
              (inject_Z 60 + inject_Z 0 / 10)%Q 85)
    as (b0 & b1 & b2 & b3 & Heq & H0 & H1 & H2 & H3 & Hsum & _).
  - vm_compute. reflexivity.
  - exists b0, b1, b2, b3. tauto.
Defined.

(** X17: a well-formed transmission is read back.  For bytes b0..b3
    with b0+b1+b2+b3 <= 255, sent MSB first with that sum as fifth byte,
    0 bits as high pulses of S short samples and 1 bits as high pulses of
    S long samples, short < long and S short <= 1000, whatever the idle,
    response, acknowledgement and gap lengths: [read] returns a reading
    whose checksum is the sum; its temperature is exactly b2 + b3/10
    when b3 is a multiple of 5, and its humidity is exactly b0 + b1/10
    when b1 is a multiple of 5. *)
Theorem X17_transmission_round_trip (idle resp ack gap short long : nat)
    (b0 b1 b2 b3 : Z) :
  (short < long)%nat -> (S short <= 1000)%nat ->
  is_byte b0 -> is_byte b1 -> is_byte b2 -> is_byte b3 ->
  b0 + b1 + b2 + b3 <= 255 ->
  exists t h : Q,
    read (signal idle resp ack gap
            (widths_of_bits short long
               (bits_of_bytes [b0; b1; b2; b3; b0 + b1 + b2 + b3])))
    = Return (t, h, b0 + b1 + b2 + b3)
    /\ (b3 mod 5 = 0 -> t = (inject_Z b2 + inject_Z b3 / 10)%Q)
    /\ (b1 mod 5 = 0 -> h = (inject_Z b0 + inject_Z b1 / 10)%Q).
Proof.
  intros Hsl Hs H0 H1 H2 H3 Hsum.
  set (bs := [b0; b1; b2; b3; b0 + b1 + b2 + b3]).
  assert (Hbs : Forall is_byte bs).
  { unfold bs. repeat (constructor; [assumption|]).
    constructor; [|constructor]. unfold is_byte in *. lia. }
  exists (inject_Z b2 + inject_Z b3 / 10)%Q, (inject_Z b0 + inject_Z b1 / 10)%Q.
  split; [|split; intros _; reflexivity].
  unfold read. cbv zeta. rewrite parse_signal, widths_as_lengths.
  rewrite length_map. change (length (bits_of_bytes bs)) with 40%nat.
  cbn [Nat.eqb negb].
  rewrite decode_two_levels;
    [|lia|lia|apply frame_has_zero_bit; assumption].
  rewrite pack_round_trip by exact Hbs.
  unfold bs. rewrite read_validate_five by assumption.
  rewrite Z.eqb_refl. reflexivity.
Qed.

Lemma X17_transmission_round_trip_witness :
  exists t h : Q,
    read (signal 5 3 3 2
            (widths_of_bits 1 4
               (bits_of_bytes [60; 0; 25; 5; 60 + 0 + 25 + 5])))
    = Return (t, h, 60 + 0 + 25 + 5)
    /\ (5 mod 5 = 0 -> t = (inject_Z 25 + inject_Z 5 / 10)%Q)
    /\ (0 mod 5 = 0 -> h = (inject_Z 60 + inject_Z 0 / 10)%Q).
Proof.
  apply (X17_transmission_round_trip 5 3 3 2 1 4 60 0 25 5);
    unfold is_byte; lia.
Defined.

(** X18: forty pulses of one and the same length are accepted.  When the
    parser returns forty equal lengths v <= 1000 (for instance for a
    transmission of forty 1 bits), every bit decodes to 0, the bytes are
    0, 0, 0, 0, 0, the checksum test passes and [read] returns
    temperature 0, humidity 0, checksum 0 instead of raising. *)
Theorem X18_equal_pulses_read_zero (data : list Z) (v : Z) :
  parse_data_pull_up_lengths data = repeat v 40 -> v <= 1000 ->
  read data
  = Return ((inject_Z 0 + inject_Z 0 / 10)%Q,
            (inject_Z 0 + inject_Z 0 / 10)%Q, 0).
Proof.
  intros Hparse Hv. unfold read. cbv zeta. rewrite Hparse.
  rewrite decode_equal_lengths by exact Hv. reflexivity.
Qed.

Lemma X18_equal_pulses_read_zero_witness :
  read (signal 5 3 3 2 (widths_of_bits 1 4 (repeat true 40)))
  = Return ((inject_Z 0 + inject_Z 0 / 10)%Q,
            (inject_Z 0 + inject_Z 0 / 10)%Q, 0).
Proof.
  apply (X18_equal_pulses_read_zero
           (signal 5 3 3 2 (widths_of_bits 1 4 (repeat true 40))) 5).
  - vm_compute. reflexivity.
  - lia.
Defined.

(** X19: a line that shows the same level in every pass gives no
    reading: whenever the sampling loop ends, [read] raises
    DHT11MissingDataError. *)
Theorem X19_stuck_line_missing (line : list (Z * bool)) (v : Z) :
  Forall (fun t => fst t = v) line ->
  read_line line = None
  \/ read_line line = Some (Raise DHT11MissingDataError).
Proof.
  intros Hall. unfold read_line.
  destruct (collect_input line) as [d|] eqn:Hd; [right|left; reflexivity].
  destruct (collect_loop_prefix line _ _ Hd) as (n & _ & Heq).
  cbn [collector_init data app] in Heq.
  rewrite (firstn_constant v line (S n) Hall) in Heq. subst d.
  f_equal. apply constant_capture_missing.
Qed.

Lemma X19_stuck_line_missing_witness :
  read_line (repeat (1, false) 101 ++ [(1, false)])
  = Some (Raise DHT11MissingDataError).
Proof.
  destruct (X19_stuck_line_missing (repeat (1, false) 101 ++ [(1, false)]) 1)
    as [Hnone|Hsome].
  - apply Forall_forall. intros t Ht. apply in_app_or in Ht.
    destruct Ht as [Ht|[Ht|[]]]; [apply repeat_spec in Ht|]; subst t;
      reflexivity.
  - vm_compute in Hnone. discriminate Hnone.
  - exact Hsome.
Defined.

(** X20: on a line whose levels are 0 and 1, what the sampling loop
    returns makes the parser record lengths between 1 and 102 only, so
    the sentinels 1000 and 0 of the bit decoder never show: on a
    non-empty list of recorded lengths the decoder's shortest and longest
    are the minimum and the maximum of the list. *)
Theorem X20_collected_lengths_bounded (line : list (Z * bool))
    (d : list Z) :
  Forall (fun t => fst t = 0 \/ fst t = 1) line ->
  collect_input line = Some d ->
  Forall (fun l => 1 <= l <= 102) (parse_data_pull_up_lengths d)
  /\ (parse_data_pull_up_lengths d <> [] ->
      list_min (parse_data_pull_up_lengths d)
      = Some (shortest_pull_up (parse_data_pull_up_lengths d))
      /\ list_max (parse_data_pull_up_lengths d)
         = Some (longest_pull_up (parse_data_pull_up_lengths d))).
Proof.
  intros Hbin Hd.
  assert (Hlong : longest_run d <= 102).
  { apply (collect_loop_runs line collector_init d); [cbn; lia|exact Hd]. }
  assert (Hdbin : Forall (fun x => x = 0 \/ x = 1) d).
  { destruct (collect_loop_prefix line _ _ Hd) as (n & _ & Heq).
    cbn [collector_init data app] in Heq. subst d.
    apply Forall_forall. intros x Hx. apply in_map_iff in Hx.
    destruct Hx as (t & <- & Ht).
    assert (Hin : In t line).
    { rewrite <- (firstn_skipn (S n) line). apply in_or_app. left. exact Ht. }
    rewrite Forall_forall in Hbin. apply (Hbin t Hin). }
  assert (Hbound : Forall (fun l => 1 <= l <= 102)
                          (parse_data_pull_up_lengths d)).
  { destruct (parse_run_runs d Hdbin) as [Hruns _].
    eapply Forall_impl; [|exact Hruns].
    intros l. apply recorded_run_bound, Hlong. }
  split; [exact Hbound|]. intros Hne.
  destruct (parse_data_pull_up_lengths d) as [|x xs]; [now elim Hne|].
  destruct (scan_in_range x xs) as [Hs Hl].
  { eapply Forall_impl; [|exact Hbound]. cbv beta. intros l Hl. lia. }
  cbn [list_min list_max]. rewrite Hs, Hl. split; reflexivity.
Qed.

Lemma X20_collected_lengths_bounded_witness :
  Forall (fun l => 1 <= l <= 102)
         (parse_data_pull_up_lengths [1; 0; 1; 0; 1; 1; 0; 0]).
Proof.
  apply (X20_collected_lengths_bounded
           (map (fun x => (x, false)) [1; 0; 1; 0; 1; 1; 0]
            ++ [(0, true)])
           [1; 0; 1; 0; 1; 1; 0; 0]).
  - repeat (constructor; [cbn; lia|]). constructor.
  - reflexivity.
Defined.

(** X21: [__calculate_checksum] on any list of integers.  With fewer than
    four entries it raises IndexError; with four or more it returns a
    value between 0 and 1020 that depends on the first four entries
    only, each taken modulo 256. *)
Theorem X21_checksum_edges (bytes0 : list Z) :
  ((length bytes0 < 4)%nat -> calculate_checksum bytes0 = Raise IndexError)
  /\ (forall b0 b1 b2 b3 more,
         bytes0 = b0 :: b1 :: b2 :: b3 :: more ->
         calculate_checksum bytes0
         = Return (b0 mod 256 + b1 mod 256 + b2 mod 256 + b3 mod 256)
         /\ 0 <= b0 mod 256 + b1 mod 256 + b2 mod 256 + b3 mod 256 <= 1020).
Proof.
  split.
  - intros Hlen. unfold calculate_checksum, index, bind.
    do 4 (destruct bytes0 as [|? bytes0]; [reflexivity|]).
    cbn [length] in Hlen. lia.
  - intros b0 b1 b2 b3 more ->. split.
    + unfold calculate_checksum, index, bind. cbn [nth_error].
      change 255 with (Z.ones 8). rewrite !Z.land_ones by lia. reflexivity.
    + pose proof (Z.mod_pos_bound b0 256). pose proof (Z.mod_pos_bound b1 256).
      pose proof (Z.mod_pos_bound b2 256). pose proof (Z.mod_pos_bound b3 256).
      lia.
Qed.

Lemma X21_checksum_edges_witness :
  calculate_checksum [200; 100] = Raise IndexError
  /\ calculate_checksum [300; -1; 0; 7; 9]
     = Return (300 mod 256 + -1 mod 256 + 0 mod 256 + 7 mod 256).
Proof.
  split.
  - apply (proj1 (X21_checksum_edges [200; 100])). cbn. lia.
  - apply (proj2 (X21_checksum_edges [300; -1; 0; 7; 9]) 300 (-1) 0 7 [9]).
    reflexivity.
Defined.
